(** * Scheduler: the timeline layout and interactive-editing engine

    A shallow embedding of [src/TimelineDisplay.tsx], of the time picker
    dialog ([TimePickerModal]) and of the store callbacks that
    [ScheduleManager] hands to the timeline, followed by the properties of
    the specification that were checked against them.

    JavaScript numbers are modelled as exact rationals ([Q]): every
    operation the code performs on times ([+], [-], [*], [/], [Math.max],
    [Math.min], [Math.floor], [Math.round], [<], [>]) has its mathematical
    meaning, the rounding error of binary floating point is not modelled
    and [NaN]/[Infinity] do not exist (a division by a zero width is
    excluded by hypothesis where it matters).  Equality of times is [==]
    ([Qeq]). *)

From Stdlib Require Import QArith Qround Qminmax ZArith List String Ascii Bool.
From Stdlib Require Import Lia Lqa Permutation Sorted DecimalString Arith.
Import ListNotations.

Local Open Scope Q_scope.

(** ** JavaScript primitives *)

Module Math.

Definition floor (x : Q) : Z := Qfloor x.

(** [Math.round] rounds to the nearest integer, halves towards +infinity. *)
Definition round (x : Q) : Z := Qfloor (x + (1 # 2)).

Definition max (x y : Q) : Q := Qmax x y.
Definition min (x y : Q) : Q := Qmin x y.

End Math.

(** [x < y] on numbers, as a boolean. *)
Definition Qltb (x y : Q) : bool := negb (Qle_bool y x).

(** [n.toString()] for an integral number. *)
Definition toString (n : Z) : string := NilZero.string_of_int (Z.to_int n).

Fixpoint repeat_zero (n : nat) : string :=
  match n with
  | O => EmptyString
  | S k => String "0"%char (repeat_zero k)
  end.

(** [s.padStart(n, "0")]. *)
Definition padStart (n : nat) (s : string) : string :=
  (repeat_zero (n - String.length s) ++ s)%string.

(** ** Data model *)

Record TimeBlockData : Type := mkBlock {
  id : string;
  start : Q;
  end_ : Q;
  label : string;
  color : string;
  calendarId : string
}.

(** [Partial<TimeBlockData>]: every field may be absent. *)
Record PartialBlock : Type := mkPartial {
  p_id : option string;
  p_start : option Q;
  p_end : option Q;
  p_label : option string;
  p_color : option string;
  p_calendarId : option string
}.

Definition no_updates : PartialBlock := mkPartial None None None None None None.

Definition or_else {A : Type} (o : option A) (d : A) : A :=
  match o with Some a => a | None => d end.

(** [{ ...block, ...updates }] *)
Definition spread (block : TimeBlockData) (updates : PartialBlock) : TimeBlockData :=
  {| id := or_else (p_id updates) (id block);
     start := or_else (p_start updates) (start block);
     end_ := or_else (p_end updates) (end_ block);
     label := or_else (p_label updates) (label block);
     color := or_else (p_color updates) (color block);
     calendarId := or_else (p_calendarId updates) (calendarId block) |}.

Inductive DragType : Type := move | resize_start | resize_end.

Record DragState : Type := mkDrag {
  type : option DragType;
  blockId : option string;
  initialX : Q;
  initialStart : Q;
  initialEnd : Q
}.

Definition idleDrag : DragState := mkDrag None None 0 0 0.

Definition ROW_HEIGHT : Q := 30.
Definition TOP_MARGIN : Q := 30.
Definition BOTTOM_PADDING : Q := 20.
Definition MIN_ROW_COUNT : nat := 3.

(** ** Time formatting *)

Definition format_hours (time : Q) : Z := Math.floor time.

Definition format_minutes (time : Q) : Z :=
  Math.round ((time - inject_Z (format_hours time)) * 60).

Definition formatTime (time : Q) : string :=
  (padStart 2 (toString (format_hours time)) ++ ":"
   ++ padStart 2 (toString (format_minutes time)))%string.

(** ** Row packing ([blockRows] / [maxRow]) *)

(** A JavaScript [Map] from block ids to rows, entries in insertion order. *)
Abbreviation RowMap := (list (string * nat)).

(** [rows.set(k, v)]: an existing key keeps its place, a new one goes last. *)
Fixpoint Map_set (k : string) (v : nat) (rows : RowMap) : RowMap :=
  match rows with
  | [] => [(k, v)]
  | (k', v') :: rest =>
      if String.eqb k' k then (k, v) :: rest else (k', v') :: Map_set k v rest
  end.

(** [rows.get(k)] *)
Fixpoint Map_get (k : string) (rows : RowMap) : option nat :=
  match rows with
  | [] => None
  | (k', v') :: rest => if String.eqb k' k then Some v' else Map_get k rest
  end.

(** [blocks.find((b) => b.id === i)] *)
Definition blocks_find (blocks : list TimeBlockData) (i : string)
  : option TimeBlockData :=
  find (fun b => String.eqb (id b) i) blocks.

(** [[...blocks].sort((a, b) => a.start - b.start)]: a stable sort; the
    element that came first stays first when the comparator is not positive. *)
Fixpoint insert_by_start (x : TimeBlockData) (l : list TimeBlockData)
  : list TimeBlockData :=
  match l with
  | [] => [x]
  | y :: ys =>
      if Qle_bool (start x) (start y) then x :: y :: ys
      else y :: insert_by_start x ys
  end.

Definition sort_by_start (blocks : list TimeBlockData) : list TimeBlockData :=
  fold_right insert_by_start [] blocks.

(** The condition of the [while] loop: some entry of [rows] sits in [row]
    and the block stored under its id overlaps [block].  Every key of [rows]
    is the id of a member of [blocks] (lemma [row_of_at]), so the
    [find] of the source never misses; the [None] branch is dead. *)
Definition row_taken (blocks : list TimeBlockData) (rows : RowMap)
  (block : TimeBlockData) (row : nat) : bool :=
  existsb
    (fun entry =>
       Nat.eqb (snd entry) row &&
       match blocks_find blocks (fst entry) with
       | Some b => Qltb (start b) (end_ block) && Qltb (start block) (end_ b)
       | None => false
       end)
    rows.

(** [let row = 0; while (...) row++], with the number of iterations left. *)
Fixpoint find_row_from (blocks : list TimeBlockData) (rows : RowMap)
  (block : TimeBlockData) (fuel row : nat) : nat :=
  match fuel with
  | O => row
  | S fuel' =>
      if row_taken blocks rows block row
      then find_row_from blocks rows block fuel' (S row)
      else row
  end.

(** The loop leaves after at most one iteration per entry of [rows]
    (lemma [find_row_spec]). *)
Definition find_row (blocks : list TimeBlockData) (rows : RowMap)
  (block : TimeBlockData) : nat :=
  find_row_from blocks rows block (S (List.length rows)) 0.

(** The body of the [forEach], on the pair [(rows, maxRowFound)]. *)
Definition place_block (blocks : list TimeBlockData) (st : RowMap * nat)
  (block : TimeBlockData) : RowMap * nat :=
  let row := find_row blocks (fst st) block in
  (Map_set (id block) row (fst st), Nat.max (snd st) row).

Definition pack_from (blocks : list TimeBlockData) (st : RowMap * nat)
  (l : list TimeBlockData) : RowMap * nat :=
  fold_left (place_block blocks) l st.

Definition pack (blocks : list TimeBlockData) : RowMap * nat :=
  pack_from blocks ([], O) (sort_by_start blocks).

Definition blockRows (blocks : list TimeBlockData) : RowMap := fst (pack blocks).

Definition maxRowFound (blocks : list TimeBlockData) : nat := snd (pack blocks).

Definition maxRow (blocks : list TimeBlockData) : nat :=
  Nat.max (maxRowFound blocks + 1) MIN_ROW_COUNT.

(** [blockRows.get(block.id) || 0], the row a block is drawn in. *)
Definition row_of (blocks : list TimeBlockData) (block : TimeBlockData) : nat :=
  or_else (Map_get (id block) (blockRows blocks)) O.

(** ** Rendering of one block ([TimeBlock]) *)

Record Segment : Type := mkSegment {
  seg_block : string;
  seg_start : Q;
  seg_end : Q;
  seg_left : Q;      (* percent *)
  seg_width : Q;     (* percent *)
  seg_top : Q;       (* px *)
  isSecondPart : bool;
  has_delete : bool
}.

Definition renderBlock (block : TimeBlockData) (row : nat)
  (s e : Q) (second : bool) : Segment :=
  {| seg_block := id block;
     seg_start := s;
     seg_end := e;
     seg_left := (s / 24) * 100;
     seg_width := ((e - s) / 24) * 100;
     seg_top := TOP_MARGIN + inject_Z (Z.of_nat row) * ROW_HEIGHT;
     isSecondPart := second;
     has_delete := negb second |}.

Definition spansMidnight (block : TimeBlockData) : bool :=
  Qltb (end_ block) (start block).

Definition TimeBlock (block : TimeBlockData) (row : nat) : list Segment :=
  if spansMidnight block
  then [renderBlock block row (start block) 24 false;
        renderBlock block row 0 (end_ block) true]
  else [renderBlock block row (start block) (end_ block) false].

(** The blocks of a timeline, each in its row. *)
Definition render (blocks : list TimeBlockData) : list Segment :=
  flat_map (fun block => TimeBlock block (row_of blocks block)) blocks.

(** Hours covered by a list of segments ([end - start] of each, as in the
    [width] style of [renderBlock]). *)
Definition covered_hours (segs : list Segment) : Q :=
  fold_right (fun s acc => (seg_end s - seg_start s) + acc) 0 segs.

(** ** Pointer position to time, and the mutation a pointer move proposes *)

(** [Math.round(x * 4) / 4] *)
Definition round_quarter (x : Q) : Q := inject_Z (Math.round (x * 4)) / 4.

Definition getTimeFromX (bounds_left bounds_width x : Q) : Q :=
  let relativeX := Math.max 0 (Math.min bounds_width (x - bounds_left)) in
  Math.max 0
    (Math.min 24
       (inject_Z (Math.round ((relativeX / bounds_width) * 24 * 4)) / 4)).

Definition timeShift (bounds_width initX clientX : Q) : Q :=
  ((clientX - initX) / bounds_width) * 24.

(** The body of the [requestAnimationFrame] callback of [handleMouseMove]:
    the [updates] object handed to [debouncedUpdate]. *)
Definition drag_updates (ds : DragState) (block : TimeBlockData) (shift : Q)
  : PartialBlock :=
  match type ds with
  | Some move =>
      let duration := end_ block - start block in
      let newStart :=
        Math.max 0 (Math.min (24 - duration) (initialStart ds + shift)) in
      mkPartial None
        (Some (round_quarter newStart))
        (Some (round_quarter (newStart + duration)))
        None None None
  | Some resize_start =>
      let value :=
        Math.max 0 (Math.min (end_ block - (1 # 4)) (initialStart ds + shift)) in
      mkPartial None (Some (round_quarter value)) None None None None
  | _ =>
      let value :=
        Math.max (start block + (1 # 4)) (Math.min 24 (initialEnd ds + shift)) in
      mkPartial None None (Some (round_quarter value)) None None None
  end.

(** [!dragState.blockId]: [null] and the empty string are both falsy. *)
Definition truthy_id (o : option string) : option string :=
  match o with
  | Some EmptyString => None
  | other => other
  end.

(** [handleMouseMove]: the call [debouncedUpdate(block.id, updates)] that the
    animation-frame callback will make, or [None] when the handler returns
    early.  The callback only reads values captured at the time of the event,
    so its arguments are fixed here. *)
Definition handleMouseMove (ds : DragState) (blocks : list TimeBlockData)
  (bounds_width clientX : Q) : option (string * PartialBlock) :=
  match type ds, truthy_id (blockId ds) with
  | Some _, Some target =>
      match blocks_find blocks target with
      | None => None
      | Some block =>
          Some (id block,
                drag_updates ds block (timeShift bounds_width (initialX ds) clientX))
      end
  | _, _ => None
  end.

(** [handleStartDrag] *)
Definition handleStartDrag (ds : DragState) (blocks : list TimeBlockData)
  (ty : option DragType) (target : string) (clientX : Q) : DragState :=
  match blocks_find blocks target with
  | None => ds
  | Some block => mkDrag ty (Some target) clientX (start block) (end_ block)
  end.

(** ** The store callbacks of [ScheduleManager] *)


Definition onUpdateBlock (i : string) (updates : PartialBlock)
  (prev : list TimeBlockData) : list TimeBlockData :=
  map (fun block => if String.eqb (id block) i then spread block updates else block)
      prev.

Definition onDeleteBlock (i : string) (prev : list TimeBlockData)
  : list TimeBlockData :=
  filter (fun block => negb (String.eqb (id block) i)) prev.

(** [handleUpdateLabel] calls [onUpdateBlock(blockId, { label })]. *)
Definition label_update (l : string) : PartialBlock :=
  mkPartial None None None (Some l) None None.

(** The [onUpdateTime] callback given to [TimePickerModal]:
    [onUpdateBlock(id, { start, end })]. *)
Definition time_update (s e : Q) : PartialBlock :=
  mkPartial None (Some s) (Some e) None None None.

Definition onUpdateTime (i : string) (s e : Q) (prev : list TimeBlockData)
  : list TimeBlockData := onUpdateBlock i (time_update s e) prev.

(** ** The time picker dialog *)

Module TimePickerModal.

Record Fields : Type := mkFields {
  startHour : Z;
  startMinute : Z;
  endHour : Z;
  endMinute : Z
}.

(** The values a [TimeInput] accepts: integers between 0 and [max]. *)
Definition accepted (f : Fields) : Prop :=
  (0 <= startHour f <= 23 /\ 0 <= startMinute f <= 59 /\
   0 <= endHour f <= 23 /\ 0 <= endMinute f <= 59)%Z.

Definition newStart (f : Fields) : Q :=
  inject_Z (startHour f) + inject_Z (startMinute f) / 60.

Definition newEnd (f : Fields) : Q :=
  inject_Z (endHour f) + inject_Z (endMinute f) / 60.

(** [handleSave] with a selected block: [onUpdateTime(block.id, newStart,
    newEnd)], as an action on the store. *)
Definition handleSave (block : TimeBlockData) (f : Fields)
  (prev : list TimeBlockData) : list TimeBlockData :=
  onUpdateTime (id block) (newStart f) (newEnd f) prev.

(** [x % 1]: the remainder has the sign of [x]. *)
Definition rem1 (x : Q) : Q :=
  if Qle_bool 0 x then x - inject_Z (Qfloor x) else x - inject_Z (Qceiling x).

(** The effect that runs when a block is handed to the dialog. *)
Definition openWith (block : TimeBlockData) : Fields :=
  {| startHour := Math.floor (start block);
     startMinute := Math.round (rem1 (start block) * 60);
     endHour := Math.floor (end_ block);
     endMinute := Math.round (rem1 (end_ block) * 60) |}.

(** The three handlers of a [TimeInput]: the [-] button, the [+] button and
    the text field, whose content [parseInt] reads ([None] for [NaN]). *)
Definition decrement (max value : Z) : Z :=
  if Z.eqb value 0 then max else (value - 1)%Z.

Definition increment (max value : Z) : Z :=
  if Z.eqb value max then 0%Z else (value + 1)%Z.

Definition typed (max value : Z) (parsed : option Z) : Z :=
  match parsed with
  | Some val => if Z.leb 0 val && Z.leb val max then val else value
  | None => value
  end.

(** One use of a [TimeInput] of the dialog. *)
Inductive Edit : Type :=
| Minus
| Plus
| Typed (parsed : option Z).

Definition edit (max value : Z) (e : Edit) : Z :=
  match e with
  | Minus => decrement max value
  | Plus => increment max value
  | Typed parsed => typed max value parsed
  end.

Inductive Input : Type := StartHour | StartMinute | EndHour | EndMinute.

Definition onChange (f : Fields) (i : Input) (e : Edit) : Fields :=
  match i with
  | StartHour => mkFields (edit 23 (startHour f) e) (startMinute f) (endHour f) (endMinute f)
  | StartMinute => mkFields (startHour f) (edit 59 (startMinute f) e) (endHour f) (endMinute f)
  | EndHour => mkFields (startHour f) (startMinute f) (edit 23 (endHour f) e) (endMinute f)
  | EndMinute => mkFields (startHour f) (startMinute f) (endHour f) (edit 59 (endMinute f) e)
  end.

End TimePickerModal.

(** ** The gesture life cycle and the commit policy

    One [TimelineDisplay] inside [ScheduleManager], as a transition system
    over the events of the browser.  [debouncedUpdate] is lodash's
    [debounce(f, 16)] with its default options: a call stores its arguments
    as the pending ones and restarts the timer; when the timer expires
    (16 ms after the latest call) [f] is called once with the pending
    arguments.  [useMemo] builds a new debounced function whenever the parent
    renders again (it passes a fresh [onUpdateBlock] every time), and a
    function built earlier keeps its own timer: debounced functions are
    numbered, and a handler uses the one that was current when it was
    created. *)

Abbreviation Call := (string * PartialBlock)%type.

Record State : Type := mkState {
  store : list TimeBlockData;       (* [blocks] of [ScheduleManager] *)
  dragState : DragState;
  instance : nat;                   (* the current debounced function *)
  frames : list (nat * Call);       (* callbacks waiting for the next frame *)
  timers : list (nat * Call);       (* armed timers with their pending call *)
  commits : list Call               (* calls of [onUpdateBlock] so far *)
}.

Inductive Event : Type :=
| StartDrag (ty : DragType) (target : string) (clientX : Q)
| MouseMove (clientX : Q)
| AnimationFrame
| TimerExpired (inst : nat)
| MouseUp
| DeleteBlock (target : string)
| UpdateLabel (target : string) (l : string)
| UpdateTime (target : string) (s e : Q).

(** A call of a debounced function: the pending arguments are replaced. *)
Fixpoint debounce_call (inst : nat) (c : Call) (ts : list (nat * Call))
  : list (nat * Call) :=
  match ts with
  | [] => [(inst, c)]
  | (n, c') :: rest =>
      if Nat.eqb n inst then (inst, c) :: rest
      else (n, c') :: debounce_call inst c rest
  end.

Fixpoint pending_call (inst : nat) (ts : list (nat * Call)) : option Call :=
  match ts with
  | [] => None
  | (n, c) :: rest => if Nat.eqb n inst then Some c else pending_call inst rest
  end.

Definition disarm (inst : nat) (ts : list (nat * Call)) : list (nat * Call) :=
  filter (fun t => negb (Nat.eqb (fst t) inst)) ts.

Definition run_frames (fs ts : list (nat * Call)) : list (nat * Call) :=
  fold_left (fun acc f => debounce_call (fst f) (snd f) acc) fs ts.

Section Timeline.

(** The calendar shown by this timeline and the width of its viewport. *)
Variable calendar : string.
Variable bounds_width : Q.

(** The [blocks] prop: [blocks.filter((block) => block.calendarId === calendar.id)] *)
Definition blocks_of (st : list TimeBlockData) : list TimeBlockData :=
  filter (fun block => String.eqb (calendarId block) calendar) st.

(** A call of [onUpdateBlock]: the store changes and the parent renders. *)
Definition commit (c : Call) (s : State) : State :=
  {| store := onUpdateBlock (fst c) (snd c) (store s);
     dragState := dragState s;
     instance := S (instance s);
     frames := frames s;
     timers := timers s;
     commits := commits s ++ [c] |}.

Definition step (s : State) (e : Event) : State :=
  match e with
  | StartDrag ty target clientX =>
      {| store := store s;
         dragState := handleStartDrag (dragState s) (blocks_of (store s))
                        (Some ty) target clientX;
         instance := instance s;
         frames := frames s;
         timers := timers s;
         commits := commits s |}
  | MouseMove clientX =>
      match handleMouseMove (dragState s) (blocks_of (store s))
              bounds_width clientX with
      | None => s
      | Some c =>
          {| store := store s;
             dragState := dragState s;
             instance := instance s;
             frames := frames s ++ [(instance s, c)];
             timers := timers s;
             commits := commits s |}
      end
  | AnimationFrame =>
      {| store := store s;
         dragState := dragState s;
         instance := instance s;
         frames := [];
         timers := run_frames (frames s) (timers s);
         commits := commits s |}
  | TimerExpired inst =>
      match pending_call inst (timers s) with
      | None => s
      | Some c =>
          commit c
            {| store := store s;
               dragState := dragState s;
               instance := instance s;
               frames := frames s;
               timers := disarm inst (timers s);
               commits := commits s |}
      end
  | MouseUp =>
      match type (dragState s) with
      | None => s
      | Some _ =>
          {| store := store s;
             dragState := idleDrag;
             instance := instance s;
             frames := frames s;
             timers := timers s;
             commits := commits s |}
      end
  | DeleteBlock target =>
      {| store := onDeleteBlock target (store s);
         dragState := dragState s;
         instance := S (instance s);
         frames := frames s;
         timers := timers s;
         commits := commits s |}
  | UpdateLabel target l => commit (target, label_update l) s
  | UpdateTime target st en => commit (target, time_update st en) s
  end.

Definition run (s : State) (es : list Event) : State := fold_left step es s.

End Timeline.

(** A timeline at rest: no gesture, nothing queued, nothing committed yet. *)
Definition at_rest (st : list TimeBlockData) : State :=
  mkState st idleDrag O [] [] [].

(** ** Creating a block, the height of the timeline, calendars *)


(** The [height] style of the timeline, in pixels. *)
Definition timeline_height (blocks : list TimeBlockData) : Q :=
  TOP_MARGIN + inject_Z (Z.of_nat (maxRow blocks)) * ROW_HEIGHT + BOTTOM_PADDING.

Module ScheduleManager.

Record Calendar : Type := mkCalendar {
  cal_id : string;
  cal_name : string;
  cal_color : string
}.

Record App : Type := mkApp {
  calendars : list Calendar;
  blocks : list TimeBlockData
}.

Definition defaultCalendars : list Calendar :=
  [ mkCalendar "work" "Work Schedule" "#E6F3FF";
    mkCalendar "personal" "Personal" "#F3E6FF" ].

Definition defaultBlocks : list TimeBlockData :=
  [ mkBlock "work-block" 9 17 "Work Hours" "#E6F3FF" "work";
    mkBlock "sleep" 23 7 "Sleep" "#F3E6FF" "personal" ].

(** The [onClick] of "Delete Calendar" for the calendar [calendar]. *)
Definition deleteCalendar (calendar : Calendar) (app : App) : App :=
  {| calendars :=
       filter (fun cal => negb (String.eqb (cal_id cal) (cal_id calendar)))
              (calendars app);
     blocks :=
       filter (fun block => negb (String.eqb (calendarId block) (cal_id calendar)))
              (blocks app) |}.

(** A click on the "Delete Calendar" button of the calendar at position
    [idx]; the button is only rendered when [idx > 0]. *)
Definition clickDelete (idx : nat) (app : App) : App :=
  match idx with
  | O => app
  | S _ =>
      match nth_error (calendars app) idx with
      | Some calendar => deleteCalendar calendar app
      | None => app
      end
  end.

End ScheduleManager.

(** ** Vocabulary of the properties *)

(** A time on the quarter-hour grid. *)
Definition on_grid (q : Q) : Prop := exists k : Z, q == inject_Z k / 4.

(** The blocks that start at [q]. *)
Definition starts_at (q : Q) (b : TimeBlockData) : bool := Qeq_bool (start b) q.

(** The order of the comparator [a.start - b.start]. *)
Definition by_start (a b : TimeBlockData) : Prop := start a <= start b.

(** The overlap test of the packing loop, on the stored [start] and [end]. *)
Definition overlap (a b : TimeBlockData) : Prop :=
  start a < end_ b /\ end_ a > start b.

(** The number of entries of [rows] that sit in [row] or above: the measure
    that decreases along the [while] loop. *)
Definition count_from (rows : RowMap) (row : nat) : nat :=
  List.length (filter (fun e => Nat.leb row (snd e)) rows).

(** The largest row stored in [rows] (0 when there is none). *)
Definition highest_row (rows : RowMap) : nat := list_max (map snd rows).

(** What an update does to one field: the value it carries, or the old one. *)
Definition field_after {A : Type} (upd : option A) (old new : A) : Prop :=
  match upd with
  | Some v => new = v
  | None => new = old
  end.

(** [clamp(x, lo, hi)] as the handlers write it: [Math.max(lo, Math.min(hi, x))]. *)
Definition clamp (x lo hi : Q) : Q := Math.max lo (Math.min hi x).

(** A gesture between press and release: pointer moves and animation frames. *)
Definition move_or_frame (e : Event) : Prop :=
  match e with
  | MouseMove _ | AnimationFrame => True
  | _ => False
  end.

(** The position of the latest pointer move of a list of events. *)
Fixpoint last_move (es : list Event) : option Q :=
  match es with
  | [] => None
  | e :: rest =>
      match last_move rest with
      | Some x => Some x
      | None => match e with MouseMove x => Some x | _ => None end
      end
  end.

(** The events of the pointer and of the browser's clocks: everything but
    deletions and edits of labels and times. *)
Definition pointer_event (e : Event) : Prop :=
  match e with
  | StartDrag _ _ _ | MouseMove _ | AnimationFrame | TimerExpired _ | MouseUp => True
  | _ => False
  end.

(** An update that carries nothing but times. *)
Definition time_only (u : PartialBlock) : Prop :=
  p_id u = None /\ p_label u = None /\ p_color u = None /\ p_calendarId u = None.

(** Two blocks that differ at most in their times. *)
Definition same_but_times (a b : TimeBlockData) : Prop :=
  id a = id b /\ label a = label b /\ color a = color b /\
  calendarId a = calendarId b.

(** What follows a press during one gesture: pointer moves, animation
    frames, timer expiries and the release. *)
Definition after_press (e : Event) : Prop :=
  match e with
  | MouseMove _ | AnimationFrame | TimerExpired _ | MouseUp => True
  | _ => False
  end.

(** ** Sample snapshots and gestures *)

Definition sample_blocks : list TimeBlockData :=
  [ mkBlock "a" 9 17 "Work" "#E6F3FF" "work";
    mkBlock "b" 10 12 "Review" "#E6F3FF" "work";
    mkBlock "c" 0 5 "Sleep" "#E6F3FF" "work" ].

(** The [sleep] block of [defaultBlocks]. *)
Definition sleep_block : TimeBlockData :=
  mkBlock "sleep" 23 7 "Sleep" "#F3E6FF" "personal".

Definition work_block : TimeBlockData :=
  mkBlock "work-block" 9 17 "Work Hours" "#E6F3FF" "work".

Definition ten_past_nine : TimePickerModal.Fields :=
  TimePickerModal.mkFields 9 10 17 0.

Definition dragging_b : DragState := mkDrag (Some move) (Some "b"%string) 500 10 12.

Definition resizing_a : DragState :=
  mkDrag (Some resize_start) (Some "a"%string) 100 9 17.

Definition three_moves_and_release : list Event :=
  [StartDrag move "work-block" 100; MouseMove 110; MouseMove 120;
   MouseMove 125; AnimationFrame; MouseUp].

Definition drag_then_delete : list Event :=
  [StartDrag move "work-block" 100; MouseMove 150; AnimationFrame;
   DeleteBlock "work-block"].

Definition resizing_end_a : DragState :=
  mkDrag (Some resize_end) (Some "a"%string) 100 9 17.


Definition five_moves : list Event :=
  [MouseMove 110; MouseMove 120; AnimationFrame; MouseMove 130; MouseMove 140;
   AnimationFrame; MouseMove 150].

Definition morning_and_evening : list TimeBlockData :=
  [ mkBlock "m" 6 9 "Morning" "#E6F3FF" "work";
    mkBlock "e" 18 21 "Evening" "#E6F3FF" "work" ].

Definition two_nights : list TimeBlockData :=
  [ sleep_block; mkBlock "shift" 22 6 "Night shift" "#E6F3FF" "personal" ].

Definition four_meetings : list TimeBlockData :=
  [ mkBlock "m1" 9 12 "Stand-up" "#E6F3FF" "work";
    mkBlock "m2" 10 13 "Review" "#E6F3FF" "work";
    mkBlock "m3" 11 14 "Planning" "#E6F3FF" "work";
    mkBlock "m4" 8 15 "Workshop" "#E6F3FF" "work" ].

Definition default_app : ScheduleManager.App :=
  ScheduleManager.mkApp ScheduleManager.defaultCalendars
    ScheduleManager.defaultBlocks.

(** * Properties *)

(** ** Numbers *)

(** Linear arithmetic on [Q], with the divisions by constants of the source
    written as multiplications. *)
Ltac qlra :=
  unfold Qdiv in *;
  change (/ 4) with (1 # 4) in *;
  change (/ 24) with (1 # 24) in *;
  change (/ 60) with (1 # 60) in *;
  lra.

Lemma Qltb_lt (x y : Q) : Qltb x y = true <-> x < y.
Proof.
  unfold Qltb. rewrite negb_true_iff. split; intro H.
  - apply Qnot_le_lt. intro Hle. apply Qle_bool_iff in Hle. congruence.
  - destruct (Qle_bool y x) eqn:E; [|reflexivity].
    apply Qle_bool_iff in E. exfalso. exact (Qlt_not_le _ _ H E).
Qed.

Lemma Qltb_ge (x y : Q) : Qltb x y = false <-> y <= x.
Proof.
  unfold Qltb. rewrite negb_false_iff. apply Qle_bool_iff.
Qed.

Lemma inject_Z_succ (z : Z) : inject_Z (z + 1) == inject_Z z + 1.
Proof. rewrite inject_Z_plus. reflexivity. Qed.

Lemma floor_bounds (x : Q) :
  inject_Z (Math.floor x) <= x /\ x < inject_Z (Math.floor x) + 1.
Proof.
  unfold Math.floor. split.
  - apply Qfloor_le.
  - rewrite <- inject_Z_succ. apply Qlt_floor.
Qed.

Lemma floor_unique (x : Q) (z : Z) :
  inject_Z z <= x -> x < inject_Z z + 1 -> Math.floor x = z.
Proof.
  intros Hlo Hhi. destruct (floor_bounds x) as [Fl Fh].
  assert (H1 : inject_Z z < inject_Z (Math.floor x + 1)).
  { rewrite inject_Z_succ. lra. }
  assert (H2 : inject_Z (Math.floor x) < inject_Z (z + 1)).
  { rewrite inject_Z_succ. lra. }
  rewrite <- Zlt_Qlt in H1, H2. lia.
Qed.

Lemma round_bounds (x : Q) :
  inject_Z (Math.round x) <= x + (1 # 2) /\ x - (1 # 2) < inject_Z (Math.round x).
Proof.
  unfold Math.round. destruct (floor_bounds (x + (1 # 2))) as [Fl Fh].
  unfold Math.floor in *. split; lra.
Qed.

Lemma round_unique (x : Q) (z : Z) :
  inject_Z z <= x + (1 # 2) -> x - (1 # 2) < inject_Z z -> Math.round x = z.
Proof.
  intros Hlo Hhi. unfold Math.round. apply floor_unique; lra.
Qed.

Lemma round_inject_Z (z : Z) : Math.round (inject_Z z) = z.
Proof. apply round_unique; lra. Qed.

Lemma round_mono (x y : Q) : x <= y -> (Math.round x <= Math.round y)%Z.
Proof.
  intro H. unfold Math.round. apply Qfloor_resp_le. lra.
Qed.

Lemma round_shift (x : Q) (z : Z) :
  Math.round (x + inject_Z z) = (Math.round x + z)%Z.
Proof.
  destruct (round_bounds x) as [Rl Rh].
  apply round_unique; rewrite inject_Z_plus; lra.
Qed.

Lemma max_cases (x y : Q) :
  (y <= x /\ Math.max x y == x) \/ (x <= y /\ Math.max x y == y).
Proof.
  unfold Math.max.
  destruct (Q.max_spec x y) as [[H E]|[H E]]; [right|left]; split;
    try exact E; lra.
Qed.

Lemma min_cases (x y : Q) :
  (x <= y /\ Math.min x y == x) \/ (y <= x /\ Math.min x y == y).
Proof.
  unfold Math.min.
  destruct (Q.min_spec x y) as [[H E]|[H E]]; [left|right]; split;
    try exact E; lra.
Qed.

Lemma round_quarter_on_grid (x : Q) : on_grid (round_quarter x).
Proof. exists (Math.round (x * 4)). reflexivity. Qed.

Lemma round_quarter_fixes_grid (k : Z) :
  round_quarter (inject_Z k / 4) == inject_Z k / 4.
Proof.
  unfold round_quarter.
  assert (E : Math.round (inject_Z k / 4 * 4) = k).
  { apply round_unique; field_simplify; lra. }
  rewrite E. reflexivity.
Qed.

Lemma Z_to_Q_le (a b : Z) : (a <= b)%Z -> inject_Z a <= inject_Z b.
Proof. intro H. rewrite <- Zle_Qle. exact H. Qed.

Lemma Z_to_Q_lt (a b : Z) : (a < b)%Z -> inject_Z a < inject_Z b.
Proof. intro H. rewrite <- Zlt_Qlt. exact H. Qed.

Lemma Q_to_Z_le (a b : Z) : inject_Z a <= inject_Z b -> (a <= b)%Z.
Proof. intro H. rewrite Zle_Qle. exact H. Qed.

Lemma Q_to_Z_lt (a b : Z) : inject_Z a < inject_Z b -> (a < b)%Z.
Proof. intro H. rewrite Zlt_Qlt. exact H. Qed.

(** ** Time formatting *)

Lemma padStart_two_digits (n : Z) :
  (0 <= n < 100)%Z -> String.length (padStart 2 (toString n)) = 2%nat.
Proof.
  intro H.
  assert (All : forallb
            (fun k => Nat.eqb (String.length (padStart 2 (toString (Z.of_nat k)))) 2)
            (seq 0 100) = true) by (vm_compute; reflexivity).
  rewrite forallb_forall in All.
  specialize (All (Z.to_nat n)).
  rewrite Z2Nat.id in All by lia.
  apply Nat.eqb_eq, All, in_seq. lia.
Qed.

Lemma format_hours_range (t : Q) :
  0 <= t -> t < 24 -> (0 <= format_hours t <= 23)%Z.
Proof.
  intros H0 H24. unfold format_hours.
  destruct (floor_bounds t) as [Fl Fh]. split.
  - assert (L : inject_Z (-1) < inject_Z (Math.floor t))
      by (change (inject_Z (-1)) with (-1 # 1); lra).
    apply Q_to_Z_lt in L. lia.
  - assert (L : inject_Z (Math.floor t) < inject_Z 24)
      by (change (inject_Z 24) with 24; lra).
    apply Q_to_Z_lt in L. lia.
Qed.

Lemma format_minutes_range (t : Q) : (0 <= format_minutes t <= 60)%Z.
Proof.
  unfold format_minutes, format_hours.
  destruct (floor_bounds t) as [Fl Fh].
  set (f := (t - inject_Z (Math.floor t)) * 60).
  assert (F0 : 0 <= f) by (unfold f; lra).
  assert (F1 : f <= 60) by (unfold f; lra).
  split.
  - rewrite <- (round_inject_Z 0). apply round_mono. exact F0.
  - rewrite <- (round_inject_Z 60). apply round_mono. exact F1.
Qed.

Lemma format_minutes_sixty (t : Q) :
  format_minutes t = 60%Z <-> 119 # 120 <= t - inject_Z (Math.floor t).
Proof.
  unfold format_minutes, format_hours.
  destruct (floor_bounds t) as [Fl Fh].
  destruct (round_bounds ((t - inject_Z (Math.floor t)) * 60)) as [Rl Rh].
  split.
  - intro E. rewrite E in Rl, Rh. change (inject_Z 60) with 60 in *. lra.
  - intro H. apply round_unique; change (inject_Z 60) with 60; lra.
Qed.

Lemma format_minutes_on_grid (t : Q) :
  on_grid t ->
  (format_minutes t = 0 \/ format_minutes t = 15 \/
   format_minutes t = 30 \/ format_minutes t = 45)%Z.
Proof.
  intros [k Hk].
  pose proof (Z.div_mod k 4 ltac:(lia)) as Dk.
  pose proof (Z.mod_pos_bound k 4 ltac:(lia)) as Rk.
  set (h := (k / 4)%Z) in *. set (r := (k mod 4)%Z) in *.
  assert (Et : t == inject_Z h + inject_Z r * (1 # 4)).
  { rewrite Hk, Dk, inject_Z_plus, inject_Z_mult.
    change (inject_Z 4) with 4. qlra. }
  assert (R0 : 0 <= inject_Z r) by (apply (Z_to_Q_le 0); lia).
  assert (R3 : inject_Z r <= 3) by (apply (Z_to_Q_le r 3); lia).
  assert (Fh : Math.floor t = h) by (apply floor_unique; lra).
  assert (Em : format_minutes t = (r * 15)%Z).
  { unfold format_minutes, format_hours. rewrite Fh.
    apply round_unique; rewrite inject_Z_mult; change (inject_Z 15) with 15; lra. }
  rewrite Em. lia.
Qed.

Lemma format_whole_minutes (t : Q) (h m : Z) :
  (0 <= m <= 59)%Z -> t == inject_Z h + inject_Z m / 60 ->
  format_hours t = h /\ format_minutes t = m.
Proof.
  intros Hm Et.
  assert (M0 : 0 <= inject_Z m) by (apply (Z_to_Q_le 0); lia).
  assert (M1 : inject_Z m <= 59) by (apply (Z_to_Q_le m 59); lia).
  assert (Eh : Math.floor t = h) by (apply floor_unique; qlra).
  split; [exact Eh|].
  unfold format_minutes, format_hours. rewrite Eh.
  apply round_unique; qlra.
Qed.

(** C5 (as the code has it): for every time of day [t] in [0,24),
    [formatTime t] is [HH:MM] with two characters per field, where
    [HH = floor t] (which is [floor t mod 24], between 0 and 23) and
    [MM = round ((t - floor t) * 60)].  [MM] lies between 0 and 60 and
    nothing is carried into [HH]: [MM] is 60 exactly when the fractional part
    of [t] is at least 119/120.  On the quarter-hour grid [MM] is one of
    0, 15, 30, 45, and a time of [h] hours and [m] whole minutes ([m] below
    60) is rendered with [HH = h] and [MM = m]. *)
Theorem formatTime_fields (t : Q) :
  0 <= t -> t < 24 ->
  let HH := Math.floor t in
  let MM := Math.round ((t - inject_Z (Math.floor t)) * 60) in
  formatTime t = (padStart 2 (toString HH) ++ ":" ++ padStart 2 (toString MM))%string
  /\ String.length (padStart 2 (toString HH)) = 2%nat
  /\ String.length (padStart 2 (toString MM)) = 2%nat
  /\ HH = (Math.floor t mod 24)%Z
  /\ (0 <= HH <= 23)%Z
  /\ (0 <= MM <= 60)%Z
  /\ (MM = 60%Z <-> 119 # 120 <= t - inject_Z (Math.floor t))
  /\ (on_grid t -> MM = 0 \/ MM = 15 \/ MM = 30 \/ MM = 45)%Z
  /\ (forall h m, (0 <= m <= 59)%Z -> t == inject_Z h + inject_Z m / 60 ->
                  HH = h /\ MM = m).
Proof.
  intros H0 H24 HH MM.
  pose proof (format_hours_range t H0 H24) as RH.
  pose proof (format_minutes_range t) as RM.
  change (format_hours t) with HH in RH.
  change (format_minutes t) with MM in RM.
  split; [reflexivity|].
  split; [apply padStart_two_digits; lia|].
  split; [apply padStart_two_digits; lia|].
  split; [rewrite Z.mod_small; lia|].
  split; [exact RH|].
  split; [exact RM|].
  split; [exact (format_minutes_sixty t)|].
  split; [exact (format_minutes_on_grid t)|].
  intros h m Hm Et. exact (format_whole_minutes t h m Hm Et).
Qed.

Lemma formatTime_fields_witness :
  formatTime (37 # 4) = "09:15"%string /\
  Math.round (((37 # 4) - inject_Z (Math.floor (37 # 4))) * 60) = 15%Z.
Proof.
  destruct (formatTime_fields (37 # 4)) as (E & _).
  - unfold Qle; simpl; lia.
  - unfold Qlt; simpl; lia.
  - split; [exact E | reflexivity].
Defined.

(** C5 (as stated) fails: 9.999 is a valid time of day and is rendered with
    a minute field of 60. *)
Lemma formatTime_no_carry :
  0 <= 9999 # 1000 /\ 9999 # 1000 < 24 /\
  formatTime (9999 # 1000) = "09:60"%string /\
  ~ (Math.round (((9999 # 1000) - inject_Z (Math.floor (9999 # 1000))) * 60) < 60)%Z.
Proof.
  split; [unfold Qle; simpl; lia|].
  split; [unfold Qlt; simpl; lia|].
  split; [reflexivity|].
  vm_compute. intro H. discriminate H.
Qed.

(** ** Sorting by start *)

Lemma insert_by_start_perm (x : TimeBlockData) (l : list TimeBlockData) :
  Permutation (x :: l) (insert_by_start x l).
Proof.
  induction l as [|y ys IH]; simpl.
  - apply Permutation_refl.
  - destruct (Qle_bool (start x) (start y)).
    + apply Permutation_refl.
    + eapply perm_trans; [apply perm_swap|]. apply perm_skip, IH.
Qed.

Lemma sort_by_start_perm (l : list TimeBlockData) :
  Permutation l (sort_by_start l).
Proof.
  induction l as [|x l IH]; simpl.
  - apply perm_nil.
  - eapply perm_trans; [apply perm_skip, IH|]. apply insert_by_start_perm.
Qed.

Lemma insert_by_start_sorted (x : TimeBlockData) (l : list TimeBlockData) :
  StronglySorted by_start l -> StronglySorted by_start (insert_by_start x l).
Proof.
  induction l as [|y ys IH]; simpl; intro S.
  - constructor; constructor.
  - inversion S as [|? ? Sys Hy]; subst.
    destruct (Qle_bool (start x) (start y)) eqn:E.
    + apply Qle_bool_iff in E. constructor; [exact S|].
      constructor; [exact E|].
      eapply Forall_impl; [|exact Hy].
      intros z Hz. unfold by_start in *. lra.
    + assert (Lt : start y < start x).
      { apply Qltb_lt. unfold Qltb. rewrite E. reflexivity. }
      constructor; [apply IH, Sys|].
      eapply Permutation_Forall; [apply insert_by_start_perm|].
      constructor; [unfold by_start; lra | exact Hy].
Qed.

Lemma sort_by_start_sorted (l : list TimeBlockData) :
  StronglySorted by_start (sort_by_start l).
Proof.
  induction l as [|x l IH]; simpl.
  - constructor.
  - apply insert_by_start_sorted, IH.
Qed.

Lemma insert_by_start_filter (q : Q) (x : TimeBlockData) (l : list TimeBlockData) :
  filter (starts_at q) (insert_by_start x l) = filter (starts_at q) (x :: l).
Proof.
  induction l as [|y ys IH]; [reflexivity|].
  cbn [insert_by_start].
  destruct (Qle_bool (start x) (start y)) eqn:E; [reflexivity|].
  cbn [filter] in *. rewrite IH.
  destruct (starts_at q x) eqn:Px, (starts_at q y) eqn:Py; try reflexivity.
  exfalso. unfold starts_at in *.
  apply Qeq_bool_iff in Px, Py.
  assert (Le : start x <= start y) by lra.
  apply Qle_bool_iff in Le. congruence.
Qed.

(** Stability: the blocks that start at the same time keep their order. *)
Lemma sort_by_start_stable (q : Q) (l : list TimeBlockData) :
  filter (starts_at q) (sort_by_start l) = filter (starts_at q) l.
Proof.
  induction l as [|x l IH]; [reflexivity|].
  cbn [sort_by_start fold_right].
  rewrite insert_by_start_filter. cbn [filter].
  fold (sort_by_start l). rewrite IH. reflexivity.
Qed.

(** ** The row map *)

Lemma Map_set_fresh (k : string) (v : nat) (rows : RowMap) :
  ~ In k (map fst rows) -> Map_set k v rows = rows ++ [(k, v)].
Proof.
  induction rows as [|[k' v'] rest IH]; simpl; intro N; [reflexivity|].
  destruct (String.eqb_spec k' k) as [E|E].
  - exfalso. apply N. left. exact E.
  - rewrite IH; [reflexivity|]. intro H. apply N. right. exact H.
Qed.

Lemma Map_get_app_l (k : string) (r1 r2 : RowMap) :
  In k (map fst r1) -> Map_get k (r1 ++ r2) = Map_get k r1.
Proof.
  induction r1 as [|[k' v'] rest IH]; simpl; intro H; [contradiction|].
  destruct (String.eqb_spec k' k) as [E|E]; [reflexivity|].
  apply IH. destruct H as [H|H]; [contradiction|exact H].
Qed.

Lemma Map_get_app_r (k : string) (r1 r2 : RowMap) :
  ~ In k (map fst r1) -> Map_get k (r1 ++ r2) = Map_get k r2.
Proof.
  induction r1 as [|[k' v'] rest IH]; simpl; intro N; [reflexivity|].
  destruct (String.eqb_spec k' k) as [E|E].
  - exfalso. apply N. left. exact E.
  - apply IH. intro H. apply N. right. exact H.
Qed.

Lemma Map_get_In (k : string) (v : nat) (rows : RowMap) :
  Map_get k rows = Some v -> In (k, v) rows.
Proof.
  induction rows as [|[k' v'] rest IH]; simpl; intro H; [discriminate|].
  destruct (String.eqb_spec k' k) as [E|E].
  - left. congruence.
  - right. apply IH, H.
Qed.

Lemma In_Map_get (k : string) (v : nat) (rows : RowMap) :
  NoDup (map fst rows) -> In (k, v) rows -> Map_get k rows = Some v.
Proof.
  induction rows as [|[k' v'] rest IH]; simpl; intros ND H; [contradiction|].
  inversion ND as [|? ? Nk ND']; subst.
  destruct (String.eqb_spec k' k) as [E|E].
  - destruct H as [H|H]; [congruence|].
    exfalso. apply Nk. subst k'. apply (in_map fst) in H. exact H.
  - destruct H as [H|H]; [congruence|]. apply IH; assumption.
Qed.

Lemma blocks_find_member (blocks : list TimeBlockData) (a : TimeBlockData) :
  NoDup (map id blocks) -> In a blocks -> blocks_find blocks (id a) = Some a.
Proof.
  unfold blocks_find.
  induction blocks as [|b rest IH]; simpl; intros ND H; [contradiction|].
  inversion ND as [|? ? Nb ND']; subst.
  destruct (String.eqb_spec (id b) (id a)) as [E|E].
  - destruct H as [H|H]; [congruence|].
    exfalso. apply Nb. rewrite E. apply in_map, H.
  - destruct H as [H|H]; [congruence|]. apply IH; assumption.
Qed.

Lemma blocks_find_some (blocks : list TimeBlockData) (i : string) (b : TimeBlockData) :
  blocks_find blocks i = Some b -> In b blocks /\ id b = i.
Proof.
  unfold blocks_find. intro H. apply find_some in H.
  destruct H as [H E]. apply String.eqb_eq in E. split; assumption.
Qed.

Lemma blocks_find_none (blocks : list TimeBlockData) (i : string) :
  ~ In i (map id blocks) -> blocks_find blocks i = None.
Proof.
  unfold blocks_find. intro N.
  destruct (find (fun b => String.eqb (id b) i) blocks) eqn:F; [|reflexivity].
  apply find_some in F. destruct F as [F E]. apply String.eqb_eq in E.
  exfalso. apply N. rewrite <- E. apply in_map, F.
Qed.

(** ** The search for a free row *)

Lemma count_from_le (rows : RowMap) (row : nat) :
  (count_from rows row <= List.length rows)%nat.
Proof. apply filter_length_le. Qed.

Lemma row_taken_entry blocks rows block row :
  row_taken blocks rows block row = true ->
  exists e, In e rows /\ snd e = row.
Proof.
  unfold row_taken. intro H. apply existsb_exists in H.
  destruct H as (e & He & Hc). apply andb_true_iff in Hc.
  exists e. split; [exact He|]. apply Nat.eqb_eq, Hc.
Qed.

Lemma count_from_mono (rows : RowMap) (row : nat) :
  (count_from rows (S row) <= count_from rows row)%nat.
Proof.
  unfold count_from. induction rows as [|x xs IH]; [apply Nat.le_refl|].
  cbn [filter].
  destruct (Nat.leb_spec (S row) (snd x)), (Nat.leb_spec row (snd x));
    cbn [List.length]; lia.
Qed.

Lemma count_from_succ (rows : RowMap) (row : nat) :
  (exists e, In e rows /\ snd e = row) ->
  (count_from rows (S row) < count_from rows row)%nat.
Proof.
  intros (e & He & Hr).
  induction rows as [|e' rest IH]; [contradiction|].
  pose proof (count_from_mono rest row) as Mono.
  unfold count_from in *. cbn [filter].
  destruct He as [He|He].
  - subst e'. rewrite Hr.
    replace (Nat.leb (S row) row) with false by (symmetry; apply Nat.leb_gt; lia).
    rewrite Nat.leb_refl. cbn [List.length]. lia.
  - specialize (IH He).
    destruct (Nat.leb_spec (S row) (snd e')), (Nat.leb_spec row (snd e'));
      cbn [List.length]; lia.
Qed.

Lemma find_row_from_spec blocks rows block (fuel row : nat) :
  (count_from rows row < fuel)%nat ->
  let r := find_row_from blocks rows block fuel row in
  row_taken blocks rows block r = false /\
  (forall r', (row <= r' < r)%nat -> row_taken blocks rows block r' = true) /\
  (row <= r <= row + count_from rows row)%nat.
Proof.
  revert row. induction fuel as [|fuel IH]; intros row Hf; [lia|].
  cbn [find_row_from].
  destruct (row_taken blocks rows block row) eqn:T.
  - pose proof (count_from_succ rows row (row_taken_entry _ _ _ _ T)) as Hc.
    destruct (IH (S row) ltac:(lia)) as (F & L & B).
    cbv zeta. split; [exact F|]. split.
    + intros r' Hr'. destruct (Nat.eq_dec r' row) as [->|Ne]; [exact T|].
      apply L. lia.
    + lia.
  - cbv zeta. split; [exact T|]. split; [intros; lia | lia].
Qed.

(** The loop ends on the smallest row that is not taken, and that row is at
    most the number of blocks placed so far. *)
Lemma find_row_spec blocks rows block :
  row_taken blocks rows block (find_row blocks rows block) = false /\
  (forall r', (r' < find_row blocks rows block)%nat ->
              row_taken blocks rows block r' = true) /\
  (find_row blocks rows block <= List.length rows)%nat.
Proof.
  unfold find_row.
  pose proof (count_from_le rows 0) as Hc.
  destruct (find_row_from_spec blocks rows block (S (List.length rows)) 0
              ltac:(lia)) as (F & L & B).
  split; [exact F|]. split; [|lia].
  intros r' Hr'. apply L. lia.
Qed.

(** ** The packing loop *)

Lemma pack_from_app blocks st (l1 l2 : list TimeBlockData) :
  pack_from blocks st (l1 ++ l2) = pack_from blocks (pack_from blocks st l1) l2.
Proof. unfold pack_from. apply fold_left_app. Qed.

Lemma pack_from_fresh blocks (l : list TimeBlockData) :
  forall st,
    NoDup (map id l) ->
    (forall b, In b l -> ~ In (id b) (map fst (fst st))) ->
    exists tail, fst (pack_from blocks st l) = fst st ++ tail /\
                 map fst tail = map id l.
Proof.
  induction l as [|b l IH]; intros st ND Fresh.
  - exists []. simpl. rewrite app_nil_r. split; reflexivity.
  - inversion ND as [|? ? Nb ND']; subst.
    cbn [pack_from fold_left]. fold (pack_from blocks (place_block blocks st b) l).
    assert (Eset : fst (place_block blocks st b)
                   = fst st ++ [(id b, find_row blocks (fst st) b)]).
    { unfold place_block. cbn [fst]. apply Map_set_fresh, Fresh. left. reflexivity. }
    assert (Fresh' : forall c, In c l ->
                       ~ In (id c) (map fst (fst (place_block blocks st b)))).
    { intros c Hc. rewrite Eset, map_app, in_app_iff. cbn.
      intros [H|[H|[]]].
      - apply (Fresh c); [right; exact Hc | exact H].
      - apply Nb. rewrite H. apply in_map, Hc. }
    destruct (IH (place_block blocks st b) ND' Fresh') as (tail & Et & Ek).
    exists ((id b, find_row blocks (fst st) b) :: tail). split.
    + rewrite Et, Eset, <- app_assoc. reflexivity.
    + cbn. rewrite Ek. reflexivity.
Qed.

Lemma pack_from_keys blocks (l : list TimeBlockData) :
  NoDup (map id l) -> map fst (fst (pack_from blocks ([], O) l)) = map id l.
Proof.
  intro ND.
  assert (Fresh : forall b, In b l -> ~ In (id b) (map fst (fst (@nil (string * nat), O)))).
  { intros b _ H. exact H. }
  destruct (pack_from_fresh blocks l ([], O) ND Fresh) as (tail & Et & Ek).
  rewrite Et. exact Ek.
Qed.

(** The row stored for the block at a position of the processing order is
    the one the search returned when the blocks before it had been placed,
    and later steps leave the rows of those earlier blocks alone. *)
Lemma pack_from_at blocks (pre post : list TimeBlockData) (b : TimeBlockData) :
  NoDup (map id (pre ++ b :: post)) ->
  let before := fst (pack_from blocks ([], O) pre) in
  let final := fst (pack_from blocks ([], O) (pre ++ b :: post)) in
  map fst before = map id pre /\
  Map_get (id b) final = Some (find_row blocks before b) /\
  (forall a, In a pre -> Map_get (id a) final = Map_get (id a) before).
Proof.
  intros ND before final.
  rewrite map_app in ND. cbn [map] in ND.
  pose proof (NoDup_app_remove_r _ _ ND) as NDpre.
  pose proof (NoDup_remove_2 _ _ _ ND) as Nb.
  apply NoDup_remove_1 in ND.
  pose proof (NoDup_app_remove_l _ _ ND) as NDpost.
  assert (Kb : map fst before = map id pre) by (apply pack_from_keys, NDpre).
  assert (Eset : fst (place_block blocks (pack_from blocks ([], O) pre) b)
                 = before ++ [(id b, find_row blocks before b)]).
  { unfold place_block. cbn [fst]. apply Map_set_fresh. fold before.
    rewrite Kb. intro H. apply Nb, in_or_app. left. exact H. }
  assert (Fresh : forall c, In c post ->
            ~ In (id c)
                (map fst (fst (place_block blocks (pack_from blocks ([], O) pre) b)))).
  { intros c Hc. rewrite Eset, map_app, in_app_iff, Kb. cbn.
    intros [H|[H|[]]].
    - assert (NDc : NoDup (map id pre ++ map id post)) by exact ND.
      revert H. clear - NDc Hc. revert NDc.
      induction (map id pre) as [|k ks IHk]; simpl; intros NDc H; [exact H|].
      inversion NDc as [|? ? Nk NDk]; subst.
      destruct H as [H|H].
      + apply Nk, in_or_app. right. rewrite H. apply in_map, Hc.
      + exact (IHk NDk H).
    - apply Nb, in_or_app. right. rewrite H. apply in_map, Hc. }
  destruct (pack_from_fresh blocks post
              (place_block blocks (pack_from blocks ([], O) pre) b) NDpost Fresh)
    as (tail & Et & Ek).
  assert (Ef : final = (before ++ [(id b, find_row blocks before b)]) ++ tail).
  { unfold final. rewrite pack_from_app. cbn [pack_from fold_left].
    fold (pack_from blocks
            (place_block blocks (pack_from blocks ([], O) pre) b) post).
    rewrite Et, Eset. reflexivity. }
  split; [exact Kb|]. split.
  - rewrite Ef, <- app_assoc, Map_get_app_r.
    + cbn. rewrite String.eqb_refl. reflexivity.
    + rewrite Kb. intro H. apply Nb, in_or_app. left. exact H.
  - intros a Ha. rewrite Ef, <- app_assoc. apply Map_get_app_l.
    rewrite Kb. apply in_map, Ha.
Qed.

(** ** Row packing: validity *)

Lemma overlap_sym (a b : TimeBlockData) : overlap a b -> overlap b a.
Proof. unfold overlap. intros [H1 H2]. split; assumption. Qed.

(** What the loop condition means once the blocks of [pre] have been placed. *)
Lemma row_taken_iff blocks (pre : list TimeBlockData) (rows : RowMap)
  (block : TimeBlockData) (row : nat) :
  NoDup (map id pre) ->
  map fst rows = map id pre ->
  (forall a, In a pre -> blocks_find blocks (id a) = Some a) ->
  row_taken blocks rows block row = true <->
  exists a, In a pre /\ Map_get (id a) rows = Some row /\ overlap a block.
Proof.
  intros ND Keys Found. unfold row_taken. rewrite existsb_exists. split.
  - intros ([k v] & He & Hc). cbn [fst snd] in Hc.
    apply andb_true_iff in Hc. destruct Hc as [Hv Ho].
    apply Nat.eqb_eq in Hv. subst v.
    assert (Hk : In k (map id pre)).
    { rewrite <- Keys. apply (in_map fst) in He. exact He. }
    apply in_map_iff in Hk. destruct Hk as (a & Ea & Ha). subst k.
    rewrite (Found a Ha) in Ho. apply andb_true_iff in Ho.
    destruct Ho as [O1 O2]. apply Qltb_lt in O1, O2.
    exists a. split; [exact Ha|]. split.
    + apply In_Map_get; [rewrite Keys; exact ND | exact He].
    + split; assumption.
  - intros (a & Ha & Hg & [O1 O2]).
    exists (id a, row). split; [apply Map_get_In, Hg|].
    cbn [fst snd]. rewrite Nat.eqb_refl, (Found a Ha). cbn.
    apply andb_true_iff. split; apply Qltb_lt; assumption.
Qed.

Lemma two_members {A : Type} (l : list A) (a b : A) :
  In a l -> In b l -> a <> b ->
  exists l1 x l2 y l3,
    l = l1 ++ x :: l2 ++ y :: l3 /\ ((x = a /\ y = b) \/ (x = b /\ y = a)).
Proof.
  intros Ha Hb Ne.
  apply in_split in Ha. destruct Ha as (l1 & l2 & ->).
  apply in_app_or in Hb. destruct Hb as [Hb|[Hb|Hb]]; [| congruence |].
  - apply in_split in Hb. destruct Hb as (m1 & m2 & ->).
    exists m1, b, m2, a, l2. split; [|right; split; reflexivity].
    rewrite <- app_assoc. reflexivity.
  - apply in_split in Hb. destruct Hb as (m1 & m2 & ->).
    exists l1, a, m1, b, m2. split; [reflexivity|left; split; reflexivity].
Qed.

Lemma row_of_at blocks (pre post : list TimeBlockData) (b : TimeBlockData) :
  NoDup (map id blocks) ->
  sort_by_start blocks = pre ++ b :: post ->
  let before := fst (pack_from blocks ([], O) pre) in
  NoDup (map id pre) /\
  map fst before = map id pre /\
  (forall a, In a pre -> blocks_find blocks (id a) = Some a) /\
  row_of blocks b = find_row blocks before b /\
  (forall a, In a pre -> Map_get (id a) before = Some (row_of blocks a)).
Proof.
  intros ND Es before.
  pose proof (sort_by_start_perm blocks) as P.
  assert (NDs : NoDup (map id (pre ++ b :: post))).
  { rewrite <- Es. eapply Permutation_NoDup; [|exact ND].
    apply Permutation_map, P. }
  destruct (pack_from_at blocks pre post b NDs) as (Kb & Gb & Ga).
  fold before in Kb, Gb, Ga.
  assert (NDpre : NoDup (map id pre)).
  { rewrite map_app in NDs. exact (NoDup_app_remove_r _ _ NDs). }
  split; [exact NDpre|]. split; [exact Kb|]. split; [|split].
  - intros a Ha. apply blocks_find_member; [exact ND|].
    eapply Permutation_in; [apply Permutation_sym, P|].
    rewrite Es. apply in_or_app. left. exact Ha.
  - unfold row_of, blockRows, pack. rewrite Es, Gb. reflexivity.
  - intros a Ha. unfold row_of, blockRows, pack. rewrite Es, (Ga a Ha).
    assert (Hk : In (id a) (map fst before)) by (rewrite Kb; apply in_map, Ha).
    apply in_map_iff in Hk. destruct Hk as ([k v] & Ek & He).
    cbn [fst] in Ek. subst k.
    rewrite (In_Map_get (id a) v before); [reflexivity | | exact He].
    rewrite Kb. exact NDpre.
Qed.

(** C1: on a snapshot with distinct ids the packing loop runs over the
    blocks in ascending order of [start], blocks of equal start in their
    original order; the row of each block is the smallest one in which no
    block placed before it overlaps it; hence two different blocks drawn in
    the same row never overlap. *)
Theorem row_packing_valid (blocks : list TimeBlockData) :
  NoDup (map id blocks) ->
  let order := sort_by_start blocks in
  pack blocks = pack_from blocks ([], O) order /\
  Permutation blocks order /\
  StronglySorted by_start order /\
  (forall q, filter (starts_at q) order = filter (starts_at q) blocks) /\
  (forall pre b post,
      order = pre ++ b :: post ->
      (forall a, In a pre -> row_of blocks a = row_of blocks b -> ~ overlap a b) /\
      (forall r, (r < row_of blocks b)%nat ->
                 exists a, In a pre /\ row_of blocks a = r /\ overlap a b)) /\
  (forall a b,
      In a blocks -> In b blocks -> a <> b ->
      row_of blocks a = row_of blocks b -> ~ overlap a b).
Proof.
  intros ND order.
  assert (Step : forall pre b post,
      order = pre ++ b :: post ->
      (forall a, In a pre -> row_of blocks a = row_of blocks b -> ~ overlap a b) /\
      (forall r, (r < row_of blocks b)%nat ->
                 exists a, In a pre /\ row_of blocks a = r /\ overlap a b)).
  { intros pre b post Es.
    destruct (row_of_at blocks pre post b ND Es) as (NDpre & Kb & Found & Rb & Ra).
    set (before := fst (pack_from blocks ([], O) pre)) in *.
    destruct (find_row_spec blocks before b) as (Free & Least & _).
    rewrite <- Rb in Free, Least. split.
    - intros a Ha Same Ho.
      assert (T : row_taken blocks before b (row_of blocks b) = true).
      { apply (row_taken_iff blocks pre); try assumption.
        exists a. split; [exact Ha|]. split; [|exact Ho].
        rewrite (Ra a Ha), Same. reflexivity. }
      congruence.
    - intros r Hr.
      pose proof (Least r Hr) as T.
      apply (row_taken_iff blocks pre) in T; try assumption.
      destruct T as (a & Ha & Hg & Ho).
      exists a. split; [exact Ha|]. split; [|exact Ho].
      rewrite (Ra a Ha) in Hg. congruence. }
  split; [reflexivity|].
  split; [apply sort_by_start_perm|].
  split; [apply sort_by_start_sorted|].
  split; [intro q; apply sort_by_start_stable|].
  split; [exact Step|].
  intros a b Ha Hb Ne Same.
  pose proof (sort_by_start_perm blocks) as P.
  destruct (two_members order a b) as (l1 & x & l2 & y & l3 & Es & Hxy);
    try (eapply Permutation_in; [exact P|assumption]); [exact Ne|].
  destruct (Step (l1 ++ x :: l2) y l3) as (NoClash & _).
  { rewrite Es, <- app_assoc. reflexivity. }
  assert (Hx : In x (l1 ++ x :: l2)) by (apply in_or_app; right; left; reflexivity).
  destruct Hxy as [[-> ->]|[-> ->]].
  - apply NoClash; assumption.
  - intro Ho. apply (NoClash b Hx); [symmetry; exact Same|].
    apply overlap_sym, Ho.
Qed.

Lemma sample_blocks_distinct : NoDup (map id sample_blocks).
Proof.
  repeat constructor; cbn; intuition discriminate.
Defined.

Lemma row_packing_valid_witness :
  NoDup (map id sample_blocks) /\
  forall a b,
    In a sample_blocks -> In b sample_blocks -> a <> b ->
    row_of sample_blocks a = row_of sample_blocks b -> ~ overlap a b.
Proof.
  split; [exact sample_blocks_distinct|].
  apply (row_packing_valid sample_blocks sample_blocks_distinct).
Defined.

(** ** Row packing: the number of rows *)

Lemma list_max_snoc (l : list nat) (n : nat) :
  list_max (l ++ [n]) = Nat.max (list_max l) n.
Proof. rewrite list_max_app. unfold list_max. cbn [fold_right]. lia. Qed.

Lemma list_max_perm (l l' : list nat) :
  Permutation l l' -> list_max l = list_max l'.
Proof.
  unfold list_max. induction 1; cbn [fold_right] in *; lia.
Qed.

Lemma pack_from_highest blocks (l : list TimeBlockData) :
  forall st,
    NoDup (map id l) ->
    (forall b, In b l -> ~ In (id b) (map fst (fst st))) ->
    snd st = highest_row (fst st) ->
    snd (pack_from blocks st l) = highest_row (fst (pack_from blocks st l)).
Proof.
  induction l as [|b l IH]; intros st ND Fresh Hst; [exact Hst|].
  inversion ND as [|? ? Nb ND']; subst.
  cbn [pack_from fold_left]. fold (pack_from blocks (place_block blocks st b) l).
  assert (Eset : fst (place_block blocks st b)
                 = fst st ++ [(id b, find_row blocks (fst st) b)]).
  { unfold place_block. cbn [fst]. apply Map_set_fresh, Fresh. left. reflexivity. }
  apply IH; [exact ND' | |].
  - intros c Hc. rewrite Eset, map_app, in_app_iff. cbn.
    intros [H|[H|[]]].
    + apply (Fresh c); [right; exact Hc | exact H].
    + apply Nb. rewrite H. apply in_map, Hc.
  - rewrite Eset. unfold highest_row. rewrite map_app. cbn [map snd].
    rewrite list_max_snoc. fold (highest_row (fst st)). rewrite <- Hst.
    reflexivity.
Qed.

Lemma Map_set_length (k : string) (v : nat) (rows : RowMap) :
  (List.length (Map_set k v rows) <= S (List.length rows))%nat.
Proof.
  induction rows as [|[k' v'] rest IH]; cbn; [lia|].
  destruct (String.eqb k' k); cbn; lia.
Qed.

Lemma pack_from_bound blocks (l : list TimeBlockData) :
  forall st,
    (snd (pack_from blocks st l) + 1
     <= Nat.max (snd st + 1) (List.length (fst st) + List.length l))%nat.
Proof.
  induction l as [|b l IH]; intro st; [cbn; lia|].
  cbn [pack_from fold_left]. fold (pack_from blocks (place_block blocks st b) l).
  specialize (IH (place_block blocks st b)).
  destruct (find_row_spec blocks (fst st) b) as (_ & _ & Hr).
  pose proof (Map_set_length (id b) (find_row blocks (fst st) b) (fst st)) as Hl.
  unfold place_block in IH at 2 3. cbn [fst snd] in IH.
  cbn [List.length]. lia.
Qed.

Lemma rows_of_keys (rows : RowMap) (l : list TimeBlockData) :
  NoDup (map fst rows) ->
  map fst rows = map id l ->
  map snd rows = map (fun b => or_else (Map_get (id b) rows) O) l.
Proof.
  intros ND Keys.
  assert (Get : forall e, In e rows -> or_else (Map_get (fst e) rows) O = snd e).
  { intros [k v] He. cbn [fst snd]. rewrite (In_Map_get k v rows ND He).
    reflexivity. }
  revert Get. generalize rows at 2 4 as m. intros m Get.
  revert l Keys. clear ND.
  induction rows as [|e rest IH]; intros [|b l] Keys; try discriminate;
    [reflexivity|].
  cbn in Keys. injection Keys as Ek Er.
  cbn [map]. rewrite <- Ek, (Get e (or_introl eq_refl)).
  f_equal. apply IH; [|exact Er].
  intros e' He'. apply Get. right. exact He'.
Qed.

Lemma maxRowFound_highest (blocks : list TimeBlockData) :
  NoDup (map id blocks) ->
  maxRowFound blocks = list_max (map (row_of blocks) blocks).
Proof.
  intro ND.
  pose proof (sort_by_start_perm blocks) as P.
  assert (NDs : NoDup (map id (sort_by_start blocks))).
  { eapply Permutation_NoDup; [|exact ND]. apply Permutation_map, P. }
  assert (Fresh : forall b, In b (sort_by_start blocks) ->
                            ~ In (id b) (map fst (fst (@nil (string * nat), O)))).
  { intros b _ H. exact H. }
  unfold maxRowFound, pack.
  rewrite (pack_from_highest blocks (sort_by_start blocks) ([], O) NDs Fresh eq_refl).
  pose proof (pack_from_keys blocks (sort_by_start blocks) NDs) as Keys.
  unfold highest_row.
  rewrite (rows_of_keys _ (sort_by_start blocks)); [| rewrite Keys; exact NDs | exact Keys].
  apply list_max_perm, Permutation_map, Permutation_sym, P.
Qed.

Lemma maxRowFound_bound (blocks : list TimeBlockData) :
  (maxRowFound blocks + 1 <= Nat.max 1 (List.length blocks))%nat.
Proof.
  unfold maxRowFound, pack.
  pose proof (pack_from_bound blocks (sort_by_start blocks) ([], O)) as B.
  cbn [fst snd List.length] in B.
  rewrite <- (Permutation_length (sort_by_start_perm blocks)) in B.
  lia.
Qed.

Lemma pack_from_values blocks (l : list TimeBlockData) :
  forall st,
    (forall e, In e (fst st) -> (snd e <= snd st)%nat) ->
    forall e, In e (fst (pack_from blocks st l)) ->
              (snd e <= snd (pack_from blocks st l))%nat.
Proof.
  induction l as [|b l IH]; intros st Hst; [exact Hst|].
  cbn [pack_from fold_left]. fold (pack_from blocks (place_block blocks st b) l).
  apply IH. unfold place_block. cbn [fst snd].
  generalize (find_row blocks (fst st) b) as r. intros r e He.
  assert (Hin : e = (id b, r) \/ In e (fst st)).
  { clear - He. induction (fst st) as [|[k v] rest IHr]; cbn in He.
    - destruct He as [He|[]]. left. symmetry. exact He.
    - destruct (String.eqb k (id b)).
      + destruct He as [He|He]; [left; symmetry; exact He | right; right; exact He].
      + destruct He as [He|He]; [right; left; exact He|].
        destruct (IHr He) as [H|H]; [left; exact H | right; right; exact H]. }
  destruct Hin as [->|Hin]; cbn [snd]; [lia|].
  specialize (Hst e Hin). lia.
Qed.

Lemma row_of_le_maxRowFound (blocks : list TimeBlockData) (b : TimeBlockData) :
  (row_of blocks b <= maxRowFound blocks)%nat.
Proof.
  unfold row_of, maxRowFound, blockRows.
  destruct (Map_get (id b) (fst (pack blocks))) as [r|] eqn:G; cbn [or_else]; [|lia].
  apply Map_get_In in G.
  apply (pack_from_values blocks (sort_by_start blocks) ([], O)
           ltac:(intros e []) (id b, r) G).
Qed.

(** C10: the reported row count is [max (highest row in use + 1) 3], the
    highest row being the largest row a block of the snapshot is drawn in
    (0 for an empty snapshot; ids distinct); every block is drawn in a row
    below the row count, which is at least 3; with at most two blocks it is
    exactly 3. *)
Theorem row_count_floor (blocks : list TimeBlockData) :
  (NoDup (map id blocks) ->
   maxRow blocks = Nat.max (list_max (map (row_of blocks) blocks) + 1) 3) /\
  (forall b, (row_of blocks b < maxRow blocks)%nat) /\
  (3 <= maxRow blocks)%nat /\
  ((List.length blocks <= 2)%nat -> maxRow blocks = 3%nat).
Proof.
  split; [|split; [|split]].
  - intro ND. unfold maxRow, MIN_ROW_COUNT.
    rewrite (maxRowFound_highest blocks ND). reflexivity.
  - intro b. pose proof (row_of_le_maxRowFound blocks b) as B.
    unfold maxRow. lia.
  - unfold maxRow, MIN_ROW_COUNT. lia.
  - intro Hl. unfold maxRow, MIN_ROW_COUNT.
    pose proof (maxRowFound_bound blocks) as B. lia.
Qed.

Lemma row_count_floor_witness :
  NoDup (map id sample_blocks) /\
  maxRow sample_blocks
  = Nat.max (list_max (map (row_of sample_blocks) sample_blocks) + 1) 3 /\
  (List.length (firstn 2 sample_blocks) <= 2)%nat /\
  maxRow (firstn 2 sample_blocks) = 3%nat.
Proof.
  split; [exact sample_blocks_distinct|].
  split; [exact (proj1 (row_count_floor sample_blocks) sample_blocks_distinct)|].
  split; [cbn; lia|].
  apply (proj2 (proj2 (proj2 (row_count_floor (firstn 2 sample_blocks))))).
  cbn. lia.
Defined.

(** ** Blocks that cross midnight *)

Lemma spansMidnight_iff (block : TimeBlockData) :
  spansMidnight block = true <-> end_ block < start block.
Proof. apply Qltb_lt. Qed.

(** C6 (as the code has it): a block with [end < start] is drawn as exactly
    two segments, from [start] to 24 and from 0 to [end], at the same height
    (the same row) and for the same block id, the second one marked as the
    continuation; together they cover [end - start + 24] hours.  A block with
    [end = start] is drawn as one segment of width zero.  The block
    [{start: 23, end: 7}] is drawn as [23,24) and [0,7), 8 hours in all. *)
Theorem midnight_split (block : TimeBlockData) (row : nat) :
  (end_ block < start block ->
   exists s1 s2,
     TimeBlock block row = [s1; s2] /\
     seg_start s1 = start block /\ seg_end s1 = 24 /\
     seg_start s2 = 0 /\ seg_end s2 = end_ block /\
     seg_top s1 = seg_top s2 /\
     seg_block s1 = id block /\ seg_block s2 = id block /\
     isSecondPart s1 = false /\ isSecondPart s2 = true /\
     covered_hours [s1; s2] == end_ block - start block + 24) /\
  (end_ block == start block ->
   exists s,
     TimeBlock block row = [s] /\
     seg_start s = start block /\ seg_end s = end_ block /\
     seg_width s == 0 /\ isSecondPart s = false) /\
  map (fun s => (seg_start s, seg_end s, isSecondPart s)) (TimeBlock sleep_block row)
  = [(23, 24, false); (0, 7, true)] /\
  covered_hours (TimeBlock sleep_block row) == 8.
Proof.
  split; [|split; [|split]].
  - intro H. unfold TimeBlock.
    rewrite (proj2 (spansMidnight_iff block) H).
    eexists; eexists. split; [reflexivity|].
    cbn [renderBlock seg_start seg_end seg_top seg_block isSecondPart
         covered_hours fold_right].
    repeat (split; [reflexivity|]). lra.
  - intro H. unfold TimeBlock.
    assert (N : spansMidnight block = false) by (apply Qltb_ge; lra).
    rewrite N. eexists. split; [reflexivity|].
    cbn [renderBlock seg_start seg_end seg_width isSecondPart].
    repeat (split; [reflexivity|]). split; [qlra | reflexivity].
  - reflexivity.
  - reflexivity.
Qed.

Lemma midnight_split_witness :
  end_ sleep_block < start sleep_block /\
  List.length (TimeBlock sleep_block 0) = 2%nat.
Proof.
  assert (H : end_ sleep_block < start sleep_block)
    by (unfold Qlt; simpl; lia).
  split; [exact H|].
  destruct (proj1 (midnight_split sleep_block 0) H) as (s1 & s2 & E & _).
  rewrite E. reflexivity.
Defined.

(** C6 (as stated) fails where [end = start]: such a block is within
    [end <= start] and is drawn as a single segment. *)
Lemma equal_ends_one_segment :
  let block := mkBlock "x" 5 5 "New Block" "#E6F3FF" "work" in
  end_ block <= start block /\
  TimeBlock block 0 = [renderBlock block 0 5 5 false] /\
  List.length (TimeBlock block 0) <> 2%nat.
Proof.
  cbv zeta. split; [unfold Qle; simpl; lia|].
  split; [reflexivity|]. cbn. discriminate.
Qed.

(** ** Updates of the store *)

Lemma onUpdateBlock_nth (i : string) (updates : PartialBlock)
  (prev : list TimeBlockData) (n : nat) :
  nth_error (onUpdateBlock i updates prev) n
  = option_map
      (fun block => if String.eqb (id block) i then spread block updates else block)
      (nth_error prev n).
Proof. unfold onUpdateBlock. apply nth_error_map. Qed.

Lemma onUpdateBlock_absent (i : string) (updates : PartialBlock)
  (prev : list TimeBlockData) :
  ~ In i (map id prev) -> onUpdateBlock i updates prev = prev.
Proof.
  unfold onUpdateBlock. induction prev as [|b rest IH]; intro N; [reflexivity|].
  cbn [map]. destruct (String.eqb_spec (id b) i) as [E|E].
  - exfalso. apply N. left. exact E.
  - rewrite IH; [reflexivity|]. intro H. apply N. right. exact H.
Qed.

Lemma onUpdateBlock_comm (i j : string) (u v : PartialBlock)
  (prev : list TimeBlockData) :
  i <> j -> p_id u = None -> p_id v = None ->
  onUpdateBlock i u (onUpdateBlock j v prev)
  = onUpdateBlock j v (onUpdateBlock i u prev).
Proof.
  intros Ne Hu Hv. unfold onUpdateBlock. rewrite !map_map.
  apply map_ext. intro b.
  destruct (String.eqb_spec (id b) j) as [Ej|Ej];
    destruct (String.eqb_spec (id b) i) as [Ei|Ei].
  - congruence.
  - assert (E : id (spread b v) = id b) by (cbn; rewrite Hv; reflexivity).
    rewrite E.
    destruct (String.eqb_spec (id b) i); [contradiction|].
    destruct (String.eqb_spec (id b) j); [reflexivity|contradiction].
  - assert (E : id (spread b u) = id b) by (cbn; rewrite Hu; reflexivity).
    rewrite E.
    destruct (String.eqb_spec (id b) i); [|contradiction].
    destruct (String.eqb_spec (id b) j); [contradiction|reflexivity].
  - destruct (String.eqb_spec (id b) i); [contradiction|].
    destruct (String.eqb_spec (id b) j); [contradiction|reflexivity].
Qed.

(** C9: a call of [onUpdateBlock] with a partial set of fields keeps the
    number and order of the blocks, leaves every block with another id as it
    is, and in a block with that id sets the fields the update carries and
    keeps the others; the update of [handleUpdateLabel] changes the label
    only.  Updates addressed to two different ids (none carrying an [id]
    field) give the same store in either order. *)
Theorem update_frame (i : string) (updates : PartialBlock)
  (prev : list TimeBlockData) :
  List.length (onUpdateBlock i updates prev) = List.length prev /\
  (forall n block,
      nth_error prev n = Some block ->
      exists block',
        nth_error (onUpdateBlock i updates prev) n = Some block' /\
        (id block <> i -> block' = block) /\
        (id block = i ->
         field_after (p_id updates) (id block) (id block') /\
         field_after (p_start updates) (start block) (start block') /\
         field_after (p_end updates) (end_ block) (end_ block') /\
         field_after (p_label updates) (label block) (label block') /\
         field_after (p_color updates) (color block) (color block') /\
         field_after (p_calendarId updates) (calendarId block) (calendarId block'))) /\
  (forall n block l,
      nth_error prev n = Some block -> id block = i ->
      nth_error (onUpdateBlock i (label_update l) prev) n
      = Some (mkBlock (id block) (start block) (end_ block) l
                (color block) (calendarId block))) /\
  (forall j other,
      i <> j -> p_id updates = None -> p_id other = None ->
      onUpdateBlock i updates (onUpdateBlock j other prev)
      = onUpdateBlock j other (onUpdateBlock i updates prev)).
Proof.
  split; [apply length_map|]. split; [|split].
  - intros n block Hn. rewrite onUpdateBlock_nth, Hn. cbn [option_map].
    eexists. split; [reflexivity|]. split.
    + intro Ne. destruct (String.eqb_spec (id block) i); [contradiction|reflexivity].
    + intro E. destruct (String.eqb_spec (id block) i); [|contradiction].
      unfold field_after, spread. cbn.
      repeat split;
        match goal with |- match ?o with _ => _ end => destruct o; reflexivity end.
  - intros n block l Hn E. rewrite onUpdateBlock_nth, Hn. cbn [option_map].
    destruct (String.eqb_spec (id block) i); [reflexivity|contradiction].
  - intros j other. apply onUpdateBlock_comm.
Qed.

Lemma update_frame_witness :
  "a"%string <> "b"%string /\
  onUpdateBlock "a" (label_update "Deep work")
    (onUpdateBlock "b" (time_update 11 13) sample_blocks)
  = onUpdateBlock "b" (time_update 11 13)
      (onUpdateBlock "a" (label_update "Deep work") sample_blocks).
Proof.
  assert (Ne : "a"%string <> "b"%string) by discriminate.
  split; [exact Ne|].
  destruct (update_frame "a" (label_update "Deep work") sample_blocks)
    as (_ & _ & _ & Comm).
  apply (Comm "b"%string (time_update 11 13) Ne); reflexivity.
Defined.

(** ** Times coming back from the time picker *)

Lemma picker_time_range (h m : Z) :
  (0 <= h <= 23)%Z -> (0 <= m <= 59)%Z ->
  0 <= inject_Z h + inject_Z m / 60 /\
  inject_Z h + inject_Z m / 60 < 24 /\
  inject_Z h + inject_Z m / 60 == inject_Z (60 * h + m) / 60.
Proof.
  intros Hh Hm.
  assert (H0 : 0 <= inject_Z h) by (apply (Z_to_Q_le 0); lia).
  assert (H1 : inject_Z h <= 23) by (apply (Z_to_Q_le h 23); lia).
  assert (M0 : 0 <= inject_Z m) by (apply (Z_to_Q_le 0); lia).
  assert (M1 : inject_Z m <= 59) by (apply (Z_to_Q_le m 59); lia).
  split; [qlra|]. split; [qlra|].
  rewrite inject_Z_plus, inject_Z_mult. change (inject_Z 60) with 60. qlra.
Qed.

(** C4 (as the code has it): the pair that the time picker hands back goes
    into the store as it is.  [handleSave] is the update
    [{start: startHour + startMinute / 60, end: endHour + endMinute / 60}]
    of the selected block's id: blocks with that id get exactly these two
    values, with no clamping and no rounding, and nothing else changes.  With
    the fields a [TimeInput] accepts, both values are whole minutes within
    [0,24). *)
Theorem picker_update_unchanged (block : TimeBlockData)
  (f : TimePickerModal.Fields) (prev : list TimeBlockData) :
  TimePickerModal.handleSave block f prev
  = onUpdateBlock (id block)
      (time_update (TimePickerModal.newStart f) (TimePickerModal.newEnd f)) prev /\
  (forall n b,
      nth_error prev n = Some b ->
      nth_error (TimePickerModal.handleSave block f prev) n
      = Some (if String.eqb (id b) (id block)
              then mkBlock (id b)
                     (inject_Z (TimePickerModal.startHour f)
                      + inject_Z (TimePickerModal.startMinute f) / 60)
                     (inject_Z (TimePickerModal.endHour f)
                      + inject_Z (TimePickerModal.endMinute f) / 60)
                     (label b) (color b) (calendarId b)
              else b)) /\
  (TimePickerModal.accepted f ->
   (0 <= TimePickerModal.newStart f /\ TimePickerModal.newStart f < 24 /\
    exists k, TimePickerModal.newStart f == inject_Z k / 60) /\
   (0 <= TimePickerModal.newEnd f /\ TimePickerModal.newEnd f < 24 /\
    exists k, TimePickerModal.newEnd f == inject_Z k / 60)).
Proof.
  split; [reflexivity|]. split.
  - intros n b Hn.
    unfold TimePickerModal.handleSave, onUpdateTime.
    rewrite onUpdateBlock_nth, Hn. cbn [option_map].
    destruct (String.eqb (id b) (id block)); reflexivity.
  - intros (Hsh & Hsm & Heh & Hem).
    unfold TimePickerModal.newStart, TimePickerModal.newEnd. split.
    + destruct (picker_time_range _ _ Hsh Hsm) as (A & B & C).
      split; [exact A|]. split; [exact B|]. eexists. exact C.
    + destruct (picker_time_range _ _ Heh Hem) as (A & B & C).
      split; [exact A|]. split; [exact B|]. eexists. exact C.
Qed.

Lemma picker_update_unchanged_witness :
  TimePickerModal.accepted ten_past_nine /\
  0 <= TimePickerModal.newStart ten_past_nine /\
  TimePickerModal.newStart ten_past_nine < 24.
Proof.
  assert (A : TimePickerModal.accepted ten_past_nine)
    by (unfold TimePickerModal.accepted; cbn; lia).
  split; [exact A|].
  destruct (picker_update_unchanged (mkBlock "a" 9 17 "" "" "work")
              ten_past_nine sample_blocks) as (_ & _ & R).
  destruct (R A) as ((L & U & _) & _). split; assumption.
Defined.

(** C4 (as stated) fails: saving 09:10 - 17:00 for block ["a"] stores a start
    of 9 + 10/60, which is not a multiple of a quarter of an hour. *)
Lemma picker_update_off_grid :
  exists b,
    nth_error
      (TimePickerModal.handleSave (mkBlock "a" 9 17 "Work" "#E6F3FF" "work")
         ten_past_nine sample_blocks) 0 = Some b /\
    start b == 55 # 6 /\
    ~ on_grid (start b).
Proof.
  eexists. split; [reflexivity|]. cbn [start]. split; [reflexivity|].
  intros [k Hk]. unfold Qeq in Hk. cbn in Hk. lia.
Qed.

(** ** Mutations proposed during a drag *)

Lemma clamp_cases (x lo hi : Q) :
  (hi <= lo /\ x <= lo /\ clamp x lo hi == lo) \/
  (hi <= lo /\ clamp x lo hi == lo) \/
  (lo <= hi /\ x <= lo /\ clamp x lo hi == lo) \/
  (lo <= hi /\ hi <= x /\ clamp x lo hi == hi) \/
  (lo <= hi /\ lo <= x <= hi /\ clamp x lo hi == x).
Proof.
  unfold clamp.
  destruct (min_cases hi x) as [[H1 E1]|[H1 E1]];
    destruct (max_cases lo (Math.min hi x)) as [[H2 E2]|[H2 E2]];
    destruct (Qlt_le_dec hi lo) as [D|D];
    try (right; left; split; lra);
    try (right; right; left; repeat split; lra);
    try (right; right; right; left; repeat split; lra);
    try (right; right; right; right; repeat split; lra).
Qed.

Lemma clamp_ext (x x' lo lo' hi hi' : Q) :
  x == x' -> lo == lo' -> hi == hi' -> clamp x lo hi == clamp x' lo' hi'.
Proof.
  intros Ex El Eh. unfold clamp.
  destruct (min_cases hi x) as [[H1 E1]|[H1 E1]];
    destruct (min_cases hi' x') as [[H1' E1']|[H1' E1']];
    destruct (max_cases lo (Math.min hi x)) as [[H2 E2]|[H2 E2]];
    destruct (max_cases lo' (Math.min hi' x')) as [[H2' E2']|[H2' E2']];
    lra.
Qed.

Lemma round_ext (x y : Q) : x == y -> Math.round x = Math.round y.
Proof.
  intro E. destruct (round_bounds y) as [Rl Rh]. apply round_unique; lra.
Qed.

Lemma round_quarter_ext (x y : Q) : x == y -> round_quarter x == round_quarter y.
Proof.
  intro E. unfold round_quarter.
  rewrite (round_ext (x * 4) (y * 4)) by lra. reflexivity.
Qed.

Lemma round_quarter_const (x q : Q) (k : Z) :
  x == q -> q == inject_Z k / 4 -> round_quarter x == q.
Proof.
  intros E G. rewrite (round_quarter_ext x (inject_Z k / 4)).
  - rewrite round_quarter_fixes_grid. symmetry. exact G.
  - rewrite E. exact G.
Qed.

Lemma round_quarter_near (x : Q) :
  x - (1 # 8) < round_quarter x /\ round_quarter x <= x + (1 # 8).
Proof.
  unfold round_quarter. destruct (round_bounds (x * 4)) as [Rl Rh].
  split; qlra.
Qed.

Lemma round_quarter_mono (x y : Q) : x <= y -> round_quarter x <= round_quarter y.
Proof.
  intro H. unfold round_quarter.
  assert (K : (Math.round (x * 4) <= Math.round (y * 4))%Z)
    by (apply round_mono; lra).
  apply Z_to_Q_le in K. qlra.
Qed.

Lemma round_quarter_grid_value (q : Q) : on_grid q -> round_quarter q == q.
Proof.
  intros [k Hk]. apply (round_quarter_const q q k); [reflexivity | exact Hk].
Qed.

Lemma handleMouseMove_found (ds : DragState) (blocks : list TimeBlockData)
  (bounds_width clientX : Q) (ty : DragType) (target : string)
  (block : TimeBlockData) :
  type ds = Some ty -> blockId ds = Some target -> target <> EmptyString ->
  blocks_find blocks target = Some block ->
  handleMouseMove ds blocks bounds_width clientX
  = Some (id block,
          drag_updates ds block (timeShift bounds_width (initialX ds) clientX)).
Proof.
  intros Ht Hb Ne Hf. unfold handleMouseMove. rewrite Ht, Hb.
  destruct target; [contradiction|]. cbn [truthy_id]. rewrite Hf. reflexivity.
Qed.

(** At the start of a gesture the stored duration of the target is the
    duration between the captured origins. *)
Lemma handleStartDrag_origin (ds : DragState) (blocks : list TimeBlockData)
  (ty : DragType) (target : string) (clientX : Q) (block : TimeBlockData) :
  blocks_find blocks target = Some block ->
  let ds' := handleStartDrag ds blocks (Some ty) target clientX in
  type ds' = Some ty /\ blockId ds' = Some target /\ initialX ds' = clientX /\
  initialStart ds' = start block /\ initialEnd ds' = end_ block.
Proof.
  intro Hf. unfold handleStartDrag. rewrite Hf. cbn. repeat split.
Qed.

(** C7 (as the code has it): in a [move] gesture a pointer move takes the
    duration from the block of the latest snapshot, [dur = end - start] as
    stored when the pointer moves, and proposes [start = quantize newStart]
    and [end = quantize (newStart + dur)], where [newStart = clamp
    (originStart + timeShift) 0 (24 - dur)]: 0 when the shifted origin is
    below 0, [24 - dur] when it is above that, the shifted origin in between.
    Each proposed time is the multiple of 0.25 nearest to its value, halves
    going up.  Whenever the stored duration is [originEnd - originStart], as
    it is when the gesture starts, this is the same formula on the origins.
    With a stored duration of 2, a shift that takes the start below 0 gives
    start 0 and end 2, and a shift that takes the end above 24 gives start 22
    and end 24. *)
Theorem move_clamp_stored (ds : DragState) (blocks : list TimeBlockData)
  (bounds_width clientX : Q) (target : string) (block : TimeBlockData) :
  type ds = Some move -> blockId ds = Some target -> target <> EmptyString ->
  blocks_find blocks target = Some block ->
  0 < bounds_width ->
  let dur := end_ block - start block in
  let shift := ((clientX - initialX ds) / bounds_width) * 24 in
  let x := initialStart ds + shift in
  let newStart := clamp x 0 (24 - dur) in
  exists s e,
    handleMouseMove ds blocks bounds_width clientX
    = Some (id block, mkPartial None (Some s) (Some e) None None None) /\
    s = round_quarter newStart /\
    e = round_quarter (newStart + dur) /\
    ((dur <= 24 -> x <= 0 -> newStart == 0) /\
     (dur <= 24 -> 24 - dur <= x -> newStart == 24 - dur) /\
     (0 <= x -> x <= 24 - dur -> newStart == x) /\
     (24 < dur -> newStart == 0)) /\
    (on_grid s /\ newStart - (1 # 8) < s /\ s <= newStart + (1 # 8)) /\
    (on_grid e /\ newStart + dur - (1 # 8) < e /\ e <= newStart + dur + (1 # 8)) /\
    (dur == initialEnd ds - initialStart ds ->
     s == round_quarter (clamp x 0 (24 - (initialEnd ds - initialStart ds))) /\
     e == round_quarter (clamp x 0 (24 - (initialEnd ds - initialStart ds))
                         + (initialEnd ds - initialStart ds))) /\
    (dur == 2 -> x < 0 -> s == 0 /\ e == 2) /\
    (dur == 2 -> 22 < x -> s == 22 /\ e == 24).
Proof.
  intros Ht Hb Ne Hf Hw dur shift x newStart.
  rewrite (handleMouseMove_found ds blocks bounds_width clientX move target block
             Ht Hb Ne Hf).
  unfold drag_updates. rewrite Ht. cbv zeta.
  fold (clamp (initialStart ds + timeShift bounds_width (initialX ds) clientX)
              0 (24 - (end_ block - start block))).
  change (timeShift bounds_width (initialX ds) clientX) with shift.
  change (clamp (initialStart ds + shift) 0 (24 - (end_ block - start block)))
    with newStart.
  change (end_ block - start block) with dur.
  exists (round_quarter newStart), (round_quarter (newStart + dur)).
  split; [reflexivity|]. split; [reflexivity|]. split; [reflexivity|].
  pose proof (clamp_cases x 0 (24 - dur)) as Cases. fold newStart in Cases.
  destruct (round_quarter_near newStart) as [Sl Sh].
  destruct (round_quarter_near (newStart + dur)) as [El Eh].
  split.
  { split; [|split; [|split]]; intros;
      destruct Cases as [(?&?&?)|[(?&?)|[(?&?&?)|[(?&?&?)|(?&?&?)]]]]; lra. }
  split; [split; [apply round_quarter_on_grid | split; assumption]|].
  split; [split; [apply round_quarter_on_grid | split; assumption]|].
  split; [|split].
  - intro Ed.
    assert (En : newStart == clamp x 0 (24 - (initialEnd ds - initialStart ds))).
    { unfold newStart. apply clamp_ext; [reflexivity | reflexivity | lra]. }
    split; apply round_quarter_ext; lra.
  - intros D2 Low.
    assert (E0 : newStart == 0).
    { destruct Cases as [(?&?&?)|[(?&?)|[(?&?&?)|[(?&?&?)|(?&?&?)]]]]; lra. }
    split.
    + apply (round_quarter_const _ _ 0); [lra | reflexivity].
    + apply (round_quarter_const _ _ 8); [lra | reflexivity].
  - intros D2 High.
    assert (E22 : newStart == 22).
    { destruct Cases as [(?&?&?)|[(?&?)|[(?&?&?)|[(?&?&?)|(?&?&?)]]]]; lra. }
    split.
    + apply (round_quarter_const _ _ 88); [lra | reflexivity].
    + apply (round_quarter_const _ _ 96); [lra | reflexivity].
Qed.

Lemma move_clamp_stored_witness :
  exists s e,
    handleMouseMove dragging_b sample_blocks 1000 0
    = Some ("b"%string, mkPartial None (Some s) (Some e) None None None) /\
    s == 0 /\ e == 2.
Proof.
  destruct (move_clamp_stored dragging_b sample_blocks 1000 0 "b"
              (mkBlock "b" 10 12 "Review" "#E6F3FF" "work"))
    as (s & e & Hm & _ & _ & _ & _ & _ & _ & Low & _).
  - reflexivity.
  - reflexivity.
  - discriminate.
  - reflexivity.
  - unfold Qlt; simpl; lia.
  - exists s, e. split; [exact Hm|]. apply Low.
    + reflexivity.
    + unfold Qlt; simpl; lia.
Defined.

(** C7 (as stated) fails once a commit of the gesture has changed the stored
    duration.  Block ["a"] is saved from the time picker as 09:10 - 17:00,
    pressed at x = 0 and moved once; the commit of that move stores 09:15 -
    17:00, a duration of 31/4 where the origins are 47/6 apart.  The next
    move, to x = 10 in a viewport 1600 wide, proposes the end 17; the formula
    on the origins gives 17:15. *)
Lemma move_duration_from_snapshot :
  let saved := TimePickerModal.handleSave (mkBlock "a" 9 17 "Work" "#E6F3FF" "work")
                 ten_past_nine [mkBlock "a" 9 17 "Work" "#E6F3FF" "work"] in
  let st := run "work" 1600 (at_rest saved)
              [StartDrag move "a" 0; MouseMove 0; AnimationFrame; TimerExpired 0] in
  let ds := dragState st in
  let dur := initialEnd ds - initialStart ds in
  let shift := ((10 - initialX ds) / 1600) * 24 in
  let newStart := clamp (initialStart ds + shift) 0 (24 - dur) in
  type ds = Some move /\ initialStart ds == 55 # 6 /\ initialEnd ds == 17 /\
  exists s e,
    handleMouseMove ds (blocks_of "work" (store st)) 1600 10
    = Some ("a"%string, mkPartial None (Some s) (Some e) None None None) /\
    s == 37 # 4 /\ e == 17 /\
    round_quarter newStart == 37 # 4 /\
    round_quarter (newStart + dur) == 69 # 4 /\
    ~ e == round_quarter (newStart + dur).
Proof.
  cbv zeta. split; [reflexivity|]. split; [reflexivity|]. split; [reflexivity|].
  eexists. eexists. split; [vm_compute; reflexivity|].
  split; [reflexivity|]. split; [reflexivity|].
  split; [vm_compute; reflexivity|]. split; [vm_compute; reflexivity|].
  vm_compute. discriminate.
Qed.

(** C8: in a [resize-start] gesture on a block that does not wrap
    ([end > start >= 0], both on the quarter-hour grid) a pointer move
    proposes only a new start, [quantize (clamp (originStart + timeShift) 0
    (end - 0.25))]; the end is not part of the update, and the block with the
    update applied still lasts at least a quarter of an hour.  The new start
    is 0 when the shifted origin is at or below 0, [end - 0.25] when it is at
    or above that, and in between the multiple of 0.25 nearest to the shifted
    origin, halves going up. *)
Theorem resize_start_min_duration (ds : DragState) (blocks : list TimeBlockData)
  (bounds_width clientX : Q) (target : string) (block : TimeBlockData) :
  type ds = Some resize_start -> blockId ds = Some target ->
  target <> EmptyString ->
  blocks_find blocks target = Some block ->
  0 < bounds_width ->
  0 <= start block -> start block < end_ block ->
  on_grid (start block) -> on_grid (end_ block) ->
  let shift := ((clientX - initialX ds) / bounds_width) * 24 in
  exists s,
    handleMouseMove ds blocks bounds_width clientX
    = Some (id block, mkPartial None (Some s) None None None None) /\
    s = round_quarter (clamp (initialStart ds + shift) 0 (end_ block - (1 # 4))) /\
    on_grid s /\
    let block' := spread block (mkPartial None (Some s) None None None None) in
    start block' = s /\ end_ block' = end_ block /\
    0 <= start block' /\
    ~ (end_ block' - start block' < 1 # 4) /\
    (initialStart ds + shift <= 0 -> s == 0) /\
    (end_ block - (1 # 4) <= initialStart ds + shift ->
     s == end_ block - (1 # 4)) /\
    (0 <= initialStart ds + shift ->
     initialStart ds + shift <= end_ block - (1 # 4) ->
     initialStart ds + shift - (1 # 8) < s /\
     s <= initialStart ds + shift + (1 # 8)).
Proof.
  intros Ht Hb Ne Hf Hw H0 Hlt [ks Hks] [ke Hke] shift.
  rewrite (handleMouseMove_found ds blocks bounds_width clientX resize_start
             target block Ht Hb Ne Hf).
  unfold drag_updates. rewrite Ht. cbv zeta.
  fold (clamp (initialStart ds + timeShift bounds_width (initialX ds) clientX)
              0 (end_ block - (1 # 4))).
  change (timeShift bounds_width (initialX ds) clientX) with shift.
  set (value := clamp (initialStart ds + shift) 0 (end_ block - (1 # 4))).
  exists (round_quarter value).
  split; [reflexivity|]. split; [reflexivity|].
  split; [apply round_quarter_on_grid|].
  cbn [spread p_start p_end or_else start end_].
  split; [reflexivity|]. split; [reflexivity|].
  assert (Kpos : (1 <= ke)%Z).
  { assert (L : inject_Z 0 < inject_Z ke)
      by (change (inject_Z 0) with 0; qlra).
    apply Q_to_Z_lt in L. lia. }
  assert (Ke : inject_Z 1 <= inject_Z ke) by (apply Z_to_Q_le, Kpos).
  change (inject_Z 1) with 1 in Ke.
  assert (V0 : 0 <= value /\ value <= end_ block - (1 # 4)).
  { unfold value.
    destruct (clamp_cases (initialStart ds + shift) 0 (end_ block - (1 # 4)))
      as [(?&?&?)|[(?&?)|[(?&?&?)|[(?&?&?)|(?&?&?)]]]]; qlra. }
  destruct V0 as [V0 V1].
  assert (Rlo : (0 <= Math.round (value * 4))%Z).
  { rewrite <- (round_inject_Z 0). apply round_mono.
    change (inject_Z 0) with 0. lra. }
  assert (Rhi : (Math.round (value * 4) <= ke + -1)%Z).
  { rewrite <- (round_inject_Z (ke + -1)). apply round_mono.
    rewrite inject_Z_plus. change (inject_Z (-1)) with (-1 # 1). qlra. }
  apply Z_to_Q_le in Rlo, Rhi.
  rewrite inject_Z_plus in Rhi.
  change (inject_Z (-1)) with (-1 # 1) in Rhi. change (inject_Z 0) with 0 in Rlo.
  assert (Cases := clamp_cases (initialStart ds + shift) 0 (end_ block - (1 # 4))).
  fold value in Cases.
  destruct (round_quarter_near value) as [Nl Nh].
  split; [unfold round_quarter; qlra|].
  split; [apply Qle_not_lt; unfold round_quarter; qlra|].
  split; [|split].
  - intro Hx. apply (round_quarter_const _ _ 0); [|reflexivity].
    destruct Cases as [(?&?&?)|[(?&?)|[(?&?&?)|[(?&?&?)|(?&?&?)]]]]; qlra.
  - intro Hx. apply (round_quarter_const _ _ (ke + -1)).
    + destruct Cases as [(?&?&?)|[(?&?)|[(?&?&?)|[(?&?&?)|(?&?&?)]]]]; qlra.
    + rewrite inject_Z_plus. change (inject_Z (-1)) with (-1 # 1). qlra.
  - intros Hx0 Hx1.
    assert (Ev : value == initialStart ds + shift).
    { destruct Cases as [(?&?&?)|[(?&?)|[(?&?&?)|[(?&?&?)|(?&?&?)]]]]; qlra. }
    split; lra.
Qed.

Lemma sample_a_found :
  blocks_find sample_blocks "a" = Some (mkBlock "a" 9 17 "Work" "#E6F3FF" "work").
Proof. reflexivity. Defined.

Lemma resize_start_min_duration_witness :
  exists s,
    handleMouseMove resizing_a sample_blocks 1000 900
    = Some ("a"%string, mkPartial None (Some s) None None None None) /\
    ~ (17 - s < 1 # 4).
Proof.
  destruct (resize_start_min_duration resizing_a sample_blocks 1000 900 "a"
              (mkBlock "a" 9 17 "Work" "#E6F3FF" "work"))
    as (s & Hm & _ & _ & _ & _ & _ & Hmin & _).
  - reflexivity.
  - reflexivity.
  - discriminate.
  - exact sample_a_found.
  - unfold Qlt; simpl; lia.
  - unfold Qle; simpl; lia.
  - unfold Qlt; simpl; lia.
  - exists 36%Z. reflexivity.
  - exists 68%Z. reflexivity.
  - exists s. split; [exact Hm | exact Hmin].
Defined.

(** ** Release and the pending mutation *)

Section Gesture.

Variable calendar : string.
Variable bounds_width : Q.

Lemma step_MouseUp (s : State) :
  let s' := step calendar bounds_width s MouseUp in
  type (dragState s') = None /\
  (type (dragState s) <> None -> dragState s' = idleDrag) /\
  store s' = store s /\ instance s' = instance s /\ frames s' = frames s /\
  timers s' = timers s /\ commits s' = commits s.
Proof.
  cbn [step]. destruct (type (dragState s)) eqn:T.
  - cbn. repeat split.
  - rewrite T. repeat split. intro H. contradiction.
Qed.

Lemma step_MouseMove_found (s : State) (ty : DragType) (target : string)
  (block : TimeBlockData) (clientX : Q) :
  type (dragState s) = Some ty -> blockId (dragState s) = Some target ->
  target <> EmptyString ->
  blocks_find (blocks_of calendar (store s)) target = Some block ->
  step calendar bounds_width s (MouseMove clientX)
  = mkState (store s) (dragState s) (instance s)
      (frames s ++ [(instance s,
                     (id block,
                      drag_updates (dragState s) block
                        (timeShift bounds_width (initialX (dragState s)) clientX)))])
      (timers s) (commits s).
Proof.
  intros Ht Hb Ne Hf. cbn [step].
  rewrite (handleMouseMove_found _ _ _ _ ty target block Ht Hb Ne Hf).
  reflexivity.
Qed.

Lemma step_MouseMove_vanished (s : State) (target : string) (clientX : Q) :
  blockId (dragState s) = Some target ->
  ~ In target (map id (blocks_of calendar (store s))) ->
  step calendar bounds_width s (MouseMove clientX) = s.
Proof.
  intros Hb Hn. cbn [step]. unfold handleMouseMove. rewrite Hb.
  destruct (type (dragState s)); [|reflexivity].
  destruct target; [reflexivity|]. cbn [truthy_id].
  rewrite (blocks_find_none _ _ Hn). reflexivity.
Qed.

Lemma blocks_of_ids (st : list TimeBlockData) (i : string) :
  In i (map id (blocks_of calendar st)) -> In i (map id st).
Proof.
  unfold blocks_of. rewrite !in_map_iff. intros (b & E & H).
  apply filter_In in H. exists b. split; [exact E | apply H].
Qed.

End Gesture.

(** ** Calls waiting for a frame or a timer *)

Lemma debounce_call_Forall (P : nat * Call -> Prop) (inst : nat) (c : Call)
  (ts : list (nat * Call)) :
  P (inst, c) -> Forall P ts -> Forall P (debounce_call inst c ts).
Proof.
  intros Hc. induction 1 as [|[n c'] rest Hx Hrest IH]; cbn [debounce_call].
  - constructor; [exact Hc | constructor].
  - destruct (Nat.eqb n inst); constructor; assumption.
Qed.

Lemma run_frames_Forall (P : Call -> Prop) (fs ts : list (nat * Call)) :
  Forall (fun f => P (snd f)) fs -> Forall (fun t => P (snd t)) ts ->
  Forall (fun t => P (snd t)) (run_frames fs ts).
Proof.
  unfold run_frames. intro Hfs. revert ts.
  induction Hfs as [|f rest Hf Hrest IH]; intros ts Hts; [exact Hts|].
  cbn [fold_left]. apply IH.
  apply (debounce_call_Forall (fun t => P (snd t))); assumption.
Qed.

Lemma pending_call_In (inst : nat) (c : Call) (ts : list (nat * Call)) :
  pending_call inst ts = Some c -> In (inst, c) ts.
Proof.
  induction ts as [|[n c'] rest IH]; cbn [pending_call]; intro H; [discriminate|].
  destruct (Nat.eqb_spec n inst) as [E|E].
  - left. congruence.
  - right. apply IH, H.
Qed.




(** ** A target that disappears during a gesture *)

(** C3 (as the code has it): deleting a block touches neither the drag state
    nor the queued or pending mutations.  While the target of an active
    gesture is absent from the snapshot, a pointer move changes nothing at
    all: no mutation is proposed, the gesture stays active (only a pointer-up
    ends it) and a mutation still pending for the target stays armed.  When
    its timer expires that mutation is delivered to the store as a commit,
    which leaves the store as it is when no block has that id. *)
Theorem vanished_target_ignored (calendar : string) (bounds_width : Q) (s : State) :
  (forall target,
      let s' := step calendar bounds_width s (DeleteBlock target) in
      store s' = onDeleteBlock target (store s) /\
      ~ In target (map id (store s')) /\
      dragState s' = dragState s /\ frames s' = frames s /\
      timers s' = timers s /\ commits s' = commits s) /\
  (forall ty target,
      type (dragState s) = Some ty ->
      blockId (dragState s) = Some target ->
      ~ In target (map id (blocks_of calendar (store s))) ->
      (forall clientX, step calendar bounds_width s (MouseMove clientX) = s) /\
      dragState (step calendar bounds_width s MouseUp) = idleDrag /\
      (forall inst updates,
          pending_call inst (timers s) = Some (target, updates) ->
          let s' := step calendar bounds_width s (TimerExpired inst) in
          commits s' = commits s ++ [(target, updates)] /\
          pending_call inst (timers s') = None /\
          dragState s' = dragState s /\
          (~ In target (map id (store s)) -> store s' = store s))).
Proof.
  split.
  - intro target. cbn [step store dragState frames timers commits].
    repeat split. unfold onDeleteBlock. rewrite in_map_iff.
    intros (b & E & H). apply filter_In in H. destruct H as [_ H].
    rewrite E, String.eqb_refl in H. discriminate.
  - intros ty target Ht Hb Hn. split; [|split].
    + intro clientX.
      apply (step_MouseMove_vanished calendar bounds_width s target clientX Hb Hn).
    + apply (step_MouseUp calendar bounds_width s). rewrite Ht. discriminate.
    + intros inst updates Hp. cbn [step]. rewrite Hp.
      cbn [commit store dragState timers commits fst snd].
      split; [reflexivity|]. split; [|split; [reflexivity|]].
      * unfold disarm. generalize (timers s). clear.
        induction l as [|[n c] rest IH]; [reflexivity|].
        cbn [filter fst]. destruct (Nat.eqb_spec n inst) as [E|E]; cbn [negb].
        -- exact IH.
        -- cbn [pending_call]. destruct (Nat.eqb_spec n inst); [contradiction|].
           exact IH.
      * intro Hs. apply onUpdateBlock_absent, Hs.
Qed.

Lemma vanished_target_ignored_witness :
  let s := run "work" 1000 (at_rest [work_block]) drag_then_delete in
  type (dragState s) = Some move /\
  ~ In "work-block"%string (map id (store s)) /\
  step "work" 1000 s (MouseMove 160) = s.
Proof.
  cbv zeta.
  set (s := run "work" 1000 (at_rest [work_block]) drag_then_delete).
  assert (Ht : type (dragState s) = Some move) by reflexivity.
  assert (Hn : ~ In "work-block"%string (map id (store s))) by (cbn; tauto).
  assert (Hb : ~ In "work-block"%string (map id (blocks_of "work" (store s))))
    by (cbn; tauto).
  split; [exact Ht|]. split; [exact Hn|].
  apply (proj2 (vanished_target_ignored "work" 1000 s)
           move "work-block"%string Ht eq_refl Hb).
Defined.

(** C3 (as stated) fails: the target of an active gesture is deleted with a
    mutation pending; after the next pointer move the gesture is still
    active and the mutation still pending, and the expiry of its timer emits
    it as a commit for the deleted block. *)
Lemma vanished_target_not_aborted :
  let s := run "work" 1000 (at_rest [work_block])
             (drag_then_delete ++ [MouseMove 160]) in
  store s = [] /\
  type (dragState s) = Some move /\
  blockId (dragState s) = Some "work-block"%string /\
  List.map (fun t => fst (snd t)) (timers s) = ["work-block"%string] /\
  List.map fst (commits (step "work" 1000 s (TimerExpired 0)))
  = ["work-block"%string].
Proof.
  cbv zeta. repeat split.
Qed.

(** * Further properties of the code *)

(** ** From a pointer position to a time *)

Lemma ratio_range (r w : Q) : 0 < w -> 0 <= r -> r <= w -> 0 <= r / w /\ r / w <= 1.
Proof.
  intros Hw H0 H1. split.
  - apply Qle_shift_div_l; [exact Hw | lra].
  - apply Qle_shift_div_r; [exact Hw | lra].
Qed.

Lemma ratio_mono (r r' w : Q) : 0 < w -> r <= r' -> r / w <= r' / w.
Proof.
  intros Hw H. unfold Qdiv. apply Qmult_le_compat_r; [exact H|].
  apply Qlt_le_weak, Qinv_lt_0_compat, Hw.
Qed.

Lemma relativeX_cases (w d : Q) :
  0 < w ->
  let r := Math.max 0 (Math.min w d) in
  0 <= r /\ r <= w /\ (d <= 0 -> r == 0) /\ (w <= d -> r == w) /\
  (0 <= d -> d <= w -> r == d).
Proof.
  intros Hw r. unfold r.
  destruct (min_cases w d) as [[H1 E1]|[H1 E1]];
    destruct (max_cases 0 (Math.min w d)) as [[H2 E2]|[H2 E2]];
    repeat split; intros; lra.
Qed.

Lemma relativeX_mono (w d d' : Q) :
  d <= d' -> Math.max 0 (Math.min w d) <= Math.max 0 (Math.min w d').
Proof.
  intro H.
  destruct (min_cases w d) as [[H1 E1]|[H1 E1]];
    destruct (min_cases w d') as [[H1' E1']|[H1' E1']];
    destruct (max_cases 0 (Math.min w d)) as [[H2 E2]|[H2 E2]];
    destruct (max_cases 0 (Math.min w d')) as [[H2' E2']|[H2' E2']];
    lra.
Qed.

Lemma quarters_of_ratio (q : Q) :
  0 <= q -> q <= 1 ->
  (0 <= Math.round (q * 24 * 4) <= 96)%Z.
Proof.
  intros H0 H1. split.
  - rewrite <- (round_inject_Z 0). apply round_mono.
    change (inject_Z 0) with 0. lra.
  - rewrite <- (round_inject_Z 96). apply round_mono.
    change (inject_Z 96) with 96. lra.
Qed.

Lemma getTimeFromX_unclamped (bounds_left bounds_width x : Q) :
  0 < bounds_width ->
  let relativeX := Math.max 0 (Math.min bounds_width (x - bounds_left)) in
  getTimeFromX bounds_left bounds_width x
  == inject_Z (Math.round ((relativeX / bounds_width) * 24 * 4)) / 4 /\
  (0 <= Math.round ((relativeX / bounds_width) * 24 * 4) <= 96)%Z.
Proof.
  intros Hw relativeX.
  destruct (relativeX_cases bounds_width (x - bounds_left) Hw) as (R0 & R1 & _).
  fold relativeX in R0, R1.
  destruct (ratio_range relativeX bounds_width Hw R0 R1) as [Q0 Q1].
  pose proof (quarters_of_ratio _ Q0 Q1) as K.
  split; [|exact K].
  unfold getTimeFromX. fold relativeX.
  set (k := Math.round (relativeX / bounds_width * 24 * 4)) in *.
  assert (K0 : 0 <= inject_Z k) by (apply (Z_to_Q_le 0); lia).
  assert (K1 : inject_Z k <= 96) by (apply (Z_to_Q_le k 96); lia).
  destruct (min_cases 24 (inject_Z k / 4)) as [[H1 E1]|[H1 E1]];
    destruct (max_cases 0 (Math.min 24 (inject_Z k / 4))) as [[H2 E2]|[H2 E2]];
    qlra.
Qed.

Lemma getTimeFromX_grid (bounds_left bounds_width x : Q) :
  0 < bounds_width ->
  let t := getTimeFromX bounds_left bounds_width x in
  0 <= t /\ t <= 24 /\ on_grid t.
Proof.
  intros Hw t.
  destruct (getTimeFromX_unclamped bounds_left bounds_width x Hw) as [Et Kt].
  fold t in Et.
  set (k := Math.round (Math.max 0 (Math.min bounds_width (x - bounds_left))
                        / bounds_width * 24 * 4)) in *.
  assert (K0 : 0 <= inject_Z k) by (apply (Z_to_Q_le 0); lia).
  assert (K1 : inject_Z k <= 96) by (apply (Z_to_Q_le k 96); lia).
  split; [qlra|]. split; [qlra|]. exists k. exact Et.
Qed.

Lemma getTimeFromX_edges (bounds_left bounds_width x : Q) :
  0 < bounds_width ->
  (x <= bounds_left -> getTimeFromX bounds_left bounds_width x == 0) /\
  (bounds_left + bounds_width <= x ->
   getTimeFromX bounds_left bounds_width x == 24).
Proof.
  intro Hw.
  destruct (getTimeFromX_unclamped bounds_left bounds_width x Hw) as [Et _].
  set (relativeX := Math.max 0 (Math.min bounds_width (x - bounds_left))) in *.
  destruct (relativeX_cases bounds_width (x - bounds_left) Hw)
    as (_ & _ & Rl & Rr & _).
  fold relativeX in Rl, Rr. split; intro Hx.
  - assert (Er : relativeX == 0) by (apply Rl; lra).
    assert (Ek : Math.round (relativeX / bounds_width * 24 * 4) = 0%Z).
    { rewrite <- (round_inject_Z 0). apply round_ext.
      rewrite Er. reflexivity. }
    rewrite Et, Ek. reflexivity.
  - assert (Er : relativeX == bounds_width) by (apply Rr; lra).
    assert (Ek : Math.round (relativeX / bounds_width * 24 * 4) = 96%Z).
    { rewrite <- (round_inject_Z 96). apply round_ext.
      rewrite Er. field. lra. }
    rewrite Et, Ek. reflexivity.
Qed.

(** X1: with a viewport of positive width, the time under a pointer position
    lies between 0 and 24 on the quarter-hour grid; positions left of the
    viewport give 0, positions right of it give 24, positions inside give the
    nearest quarter hour of their share of the day, and the time never
    decreases when the pointer goes right. *)
Theorem getTimeFromX_range (bounds_left bounds_width x : Q) :
  0 < bounds_width ->
  let t := getTimeFromX bounds_left bounds_width x in
  0 <= t /\ t <= 24 /\ on_grid t /\
  (x <= bounds_left -> t == 0) /\
  (bounds_left + bounds_width <= x -> t == 24) /\
  (bounds_left <= x -> x <= bounds_left + bounds_width ->
   t == round_quarter (((x - bounds_left) / bounds_width) * 24)) /\
  (forall x', x <= x' -> t <= getTimeFromX bounds_left bounds_width x').
Proof.
  intros Hw t.
  destruct (getTimeFromX_grid bounds_left bounds_width x Hw) as (T0 & T24 & Tg).
  destruct (getTimeFromX_edges bounds_left bounds_width x Hw) as (Tl & Tr).
  fold t in T0, T24, Tg, Tl, Tr.
  split; [exact T0|]. split; [exact T24|]. split; [exact Tg|].
  split; [exact Tl|]. split; [exact Tr|].
  destruct (getTimeFromX_unclamped bounds_left bounds_width x Hw) as [Et Kt].
  fold t in Et.
  set (relativeX := Math.max 0 (Math.min bounds_width (x - bounds_left))) in *.
  set (k := Math.round (relativeX / bounds_width * 24 * 4)) in *.
  destruct (relativeX_cases bounds_width (x - bounds_left) Hw)
    as (_ & _ & _ & _ & Rin).
  fold relativeX in Rin. split.
  - intros Hl Hr. assert (Er : relativeX == x - bounds_left) by (apply Rin; lra).
    rewrite Et. unfold round_quarter, k.
    rewrite (round_ext (relativeX / bounds_width * 24 * 4)
               ((x - bounds_left) / bounds_width * 24 * 4)); [reflexivity|].
    rewrite Er. reflexivity.
  - intros x' Hx'.
    destruct (getTimeFromX_unclamped bounds_left bounds_width x' Hw) as [Et' _].
    rewrite Et, Et'.
    set (relativeX' := Math.max 0 (Math.min bounds_width (x' - bounds_left))) in *.
    assert (Hr : relativeX <= relativeX')
      by (apply relativeX_mono; lra).
    pose proof (ratio_mono _ _ _ Hw Hr) as Hq.
    assert (Hk : (k <= Math.round (relativeX' / bounds_width * 24 * 4))%Z).
    { apply round_mono. lra. }
    apply Z_to_Q_le in Hk. qlra.
Qed.

Lemma getTimeFromX_range_witness :
  0 < 1000 /\ getTimeFromX 100 1000 (1417 # 10) == 1.
Proof.
  assert (Hw : 0 < 1000) by (unfold Qlt; simpl; lia).
  split; [exact Hw|].
  destruct (getTimeFromX_range 100 1000 (1417 # 10) Hw)
    as (_ & _ & _ & _ & _ & Hin & _).
  rewrite Hin.
  - reflexivity.
  - unfold Qle; simpl; lia.
  - unfold Qle; simpl; lia.
Defined.




(** ** More on the mutations proposed during a drag *)

(** X3: in a [resize-end] gesture a pointer move proposes only a new end,
    on the grid.  When the start of the block is on the grid the new end is
    at least a quarter of an hour after it; it is at most 24 unless the block
    starts after 23:45, in which case it is a quarter of an hour after the
    start whatever the pointer does. *)
Theorem resize_end_bounds (ds : DragState) (blocks : list TimeBlockData)
  (bounds_width clientX : Q) (target : string) (block : TimeBlockData) :
  type ds = Some resize_end -> blockId ds = Some target ->
  target <> EmptyString ->
  blocks_find blocks target = Some block ->
  0 < bounds_width ->
  on_grid (start block) ->
  let shift := ((clientX - initialX ds) / bounds_width) * 24 in
  exists e,
    handleMouseMove ds blocks bounds_width clientX
    = Some (id block, mkPartial None None (Some e) None None None) /\
    e = round_quarter
          (Math.max (start block + (1 # 4)) (Math.min 24 (initialEnd ds + shift))) /\
    on_grid e /\
    start block + (1 # 4) <= e /\
    (start block + (1 # 4) <= 24 -> e <= 24) /\
    (24 < start block + (1 # 4) -> e == start block + (1 # 4)).
Proof.
  intros Ht Hb Ne Hf Hw Hg shift.
  rewrite (handleMouseMove_found ds blocks bounds_width clientX resize_end
             target block Ht Hb Ne Hf).
  unfold drag_updates. rewrite Ht. cbv zeta.
  change (timeShift bounds_width (initialX ds) clientX) with shift.
  set (value := Math.max (start block + (1 # 4)) (Math.min 24 (initialEnd ds + shift))).
  exists (round_quarter value).
  split; [reflexivity|]. split; [reflexivity|].
  split; [apply round_quarter_on_grid|].
  assert (Gq : on_grid (start block + (1 # 4))).
  { destruct Hg as [k Hk]. exists (k + 1)%Z.
    rewrite Hk, inject_Z_plus. change (inject_Z 1) with 1. qlra. }
  assert (V : start block + (1 # 4) <= value /\
              (start block + (1 # 4) <= 24 -> value <= 24) /\
              (24 < start block + (1 # 4) -> value == start block + (1 # 4))).
  { unfold value.
    destruct (min_cases 24 (initialEnd ds + shift)) as [[H1 E1]|[H1 E1]];
      destruct (max_cases (start block + (1 # 4))
                  (Math.min 24 (initialEnd ds + shift))) as [[H2 E2]|[H2 E2]];
      repeat split; intros; lra. }
  destruct V as (V1 & V2 & V3).
  split; [|split].
  - rewrite <- (round_quarter_grid_value _ Gq). apply round_quarter_mono, V1.
  - intro H. assert (G24 : on_grid 24) by (exists 96%Z; reflexivity).
    rewrite <- (round_quarter_grid_value _ G24).
    apply round_quarter_mono, V2, H.
  - intro H. rewrite (round_quarter_ext _ _ (V3 H)).
    apply round_quarter_grid_value, Gq.
Qed.

Lemma resize_end_bounds_witness :
  exists e,
    handleMouseMove resizing_end_a sample_blocks 1000 0
    = Some ("a"%string, mkPartial None None (Some e) None None None) /\
    9 + (1 # 4) <= e.
Proof.
  destruct (resize_end_bounds resizing_end_a sample_blocks 1000 0 "a"
              (mkBlock "a" 9 17 "Work" "#E6F3FF" "work"))
    as (e & Hm & _ & _ & Hmin & _).
  - reflexivity.
  - reflexivity.
  - discriminate.
  - exact sample_a_found.
  - unfold Qlt; simpl; lia.
  - exists 36%Z. reflexivity.
  - exists e. split; [exact Hm | exact Hmin].
Defined.

(** X4: a move keeps a block within the day.  In a [move] gesture on a
    block whose stored duration [dur = end - start] lies on the grid with
    [0 <= dur <= 24], every pointer move proposes a start and an end on the
    grid with [0 <= start <= 24 - dur] and [dur <= end <= 24]; at the two
    stops the proposal is the block pushed against the edge: start 0 and end
    [dur] when the shifted origin is at or below 0, start [24 - dur] and end
    24 when it is at or above [24 - dur]. *)
Theorem move_stays_in_day (ds : DragState) (blocks : list TimeBlockData)
  (bounds_width clientX : Q) (target : string) (block : TimeBlockData) :
  type ds = Some move -> blockId ds = Some target -> target <> EmptyString ->
  blocks_find blocks target = Some block ->
  0 < bounds_width ->
  on_grid (end_ block - start block) ->
  0 <= end_ block - start block -> end_ block - start block <= 24 ->
  let dur := end_ block - start block in
  let x := initialStart ds + ((clientX - initialX ds) / bounds_width) * 24 in
  exists s e,
    handleMouseMove ds blocks bounds_width clientX
    = Some (id block, mkPartial None (Some s) (Some e) None None None) /\
    on_grid s /\ on_grid e /\
    0 <= s /\ s <= 24 - dur /\
    dur <= e /\ e <= 24 /\
    (x <= 0 -> s == 0 /\ e == dur) /\
    (24 - dur <= x -> s == 24 - dur /\ e == 24).
Proof.
  intros Ht Hb Ne Hf Hw Hg D0 D24 dur x.
  rewrite (handleMouseMove_found ds blocks bounds_width clientX move target block
             Ht Hb Ne Hf).
  unfold drag_updates. rewrite Ht. cbv zeta.
  change (timeShift bounds_width (initialX ds) clientX)
    with (((clientX - initialX ds) / bounds_width) * 24).
  change (initialStart ds + (clientX - initialX ds) / bounds_width * 24) with x.
  change (end_ block - start block) with dur in Hg, D0, D24 |- *.
  clearbody x dur.
  set (ns := Math.max 0 (Math.min (24 - dur) x)).
  exists (round_quarter ns), (round_quarter (ns + dur)).
  split; [reflexivity|].
  split; [apply round_quarter_on_grid|].
  split; [apply round_quarter_on_grid|].
  assert (N : 0 <= ns /\ ns <= 24 - dur /\
              (x <= 0 -> ns == 0) /\ (24 - dur <= x -> ns == 24 - dur)).
  { unfold ns.
    destruct (min_cases (24 - dur) x) as [[H1 E1]|[H1 E1]];
      destruct (max_cases 0 (Math.min (24 - dur) x)) as [[H2 E2]|[H2 E2]];
      repeat split; intros; lra. }
  destruct N as (N0 & N1 & Nl & Nr).
  assert (G0 : on_grid 0) by (exists 0%Z; reflexivity).
  assert (G24 : on_grid 24) by (exists 96%Z; reflexivity).
  assert (Gd : on_grid dur) by exact Hg.
  assert (Gr : on_grid (24 - dur)).
  { destruct Hg as [k Hk]. exists (96 + - k)%Z.
    rewrite inject_Z_plus, inject_Z_opp. change (inject_Z 96) with 96. qlra. }
  pose proof (round_quarter_grid_value 0 G0) as R0.
  pose proof (round_quarter_grid_value 24 G24) as R24.
  pose proof (round_quarter_grid_value dur Gd) as Rd.
  pose proof (round_quarter_grid_value (24 - dur) Gr) as Rr.
  pose proof (round_quarter_mono 0 ns N0) as M0.
  pose proof (round_quarter_mono ns (24 - dur) N1) as M1.
  assert (M2 : round_quarter dur <= round_quarter (ns + dur))
    by (apply round_quarter_mono; lra).
  assert (M3 : round_quarter (ns + dur) <= round_quarter 24)
    by (apply round_quarter_mono; lra).
  split; [lra|]. split; [lra|]. split; [lra|]. split; [lra|]. split.
  - intro Hx. specialize (Nl Hx). split.
    + pose proof (round_quarter_ext _ _ Nl) as E. lra.
    + assert (E : round_quarter (ns + dur) == round_quarter dur)
        by (apply round_quarter_ext; lra).
      lra.
  - intro Hx. specialize (Nr Hx). split.
    + pose proof (round_quarter_ext _ _ Nr) as E. lra.
    + assert (E : round_quarter (ns + dur) == round_quarter 24)
        by (apply round_quarter_ext; lra).
      lra.
Qed.

Lemma move_stays_in_day_witness :
  exists s e,
    handleMouseMove dragging_b sample_blocks 1000 5000
    = Some ("b"%string, mkPartial None (Some s) (Some e) None None None) /\
    s == 24 - (12 - 10) /\ e == 24.
Proof.
  destruct (move_stays_in_day dragging_b sample_blocks 1000 5000 "b"
              (mkBlock "b" 10 12 "Review" "#E6F3FF" "work"))
    as (s & e & Hm & _ & _ & _ & _ & _ & _ & _ & Right).
  - reflexivity.
  - reflexivity.
  - discriminate.
  - reflexivity.
  - unfold Qlt; simpl; lia.
  - exists 8%Z. reflexivity.
  - unfold Qle; simpl; lia.
  - unfold Qle; simpl; lia.
  - exists s, e. split; [exact Hm|]. apply Right. unfold Qle; simpl; lia.
Defined.

(** X5: pressing a block and moving the pointer back to where it was pressed
    proposes the block's own position.  For a block on the grid with
    [0 <= start], [start + 0.25 <= end <= 24] and any of the three kinds of
    gesture started on it, the update proposed at the press position leaves
    start and end as they are. *)
Theorem press_without_move (ty : DragType) (ds : DragState)
  (blocks : list TimeBlockData) (bounds_width x0 : Q) (target : string)
  (block : TimeBlockData) :
  target <> EmptyString ->
  blocks_find blocks target = Some block ->
  0 < bounds_width ->
  on_grid (start block) -> on_grid (end_ block) ->
  0 <= start block -> start block + (1 # 4) <= end_ block -> end_ block <= 24 ->
  exists updates,
    handleMouseMove (handleStartDrag ds blocks (Some ty) target x0)
      blocks bounds_width x0 = Some (id block, updates) /\
    start (spread block updates) == start block /\
    end_ (spread block updates) == end_ block.
Proof.
  intros Ne Hf Hw Gs Ge H0 Hmin H24.
  unfold handleStartDrag. rewrite Hf.
  rewrite (handleMouseMove_found
             (mkDrag (Some ty) (Some target) x0 (start block) (end_ block))
             blocks bounds_width x0 ty target block eq_refl eq_refl Ne Hf).
  eexists. split; [reflexivity|].
  assert (Es : timeShift bounds_width x0 x0 == 0).
  { unfold timeShift, Qdiv. setoid_replace (x0 - x0) with 0 by ring. ring. }
  cbn [initialX initialStart initialEnd].
  set (shift := timeShift bounds_width x0 x0) in *.
  destruct ty; unfold drag_updates; cbn [type initialStart initialEnd]; cbv zeta;
    cbn [spread p_start p_end or_else start end_].
  - assert (En : Math.max 0 (Math.min (24 - (end_ block - start block))
                               (start block + shift)) == start block).
    { destruct (min_cases (24 - (end_ block - start block)) (start block + shift))
        as [[H1 E1]|[H1 E1]];
        destruct (max_cases 0 (Math.min (24 - (end_ block - start block))
                                 (start block + shift))) as [[H2 E2]|[H2 E2]];
        lra. }
    split.
    + rewrite (round_quarter_ext _ _ En). apply round_quarter_grid_value, Gs.
    + transitivity (round_quarter (end_ block));
        [apply round_quarter_ext; lra | apply round_quarter_grid_value, Ge].
  - assert (En : Math.max 0 (Math.min (end_ block - (1 # 4)) (start block + shift))
                 == start block).
    { destruct (min_cases (end_ block - (1 # 4)) (start block + shift))
        as [[H1 E1]|[H1 E1]];
        destruct (max_cases 0 (Math.min (end_ block - (1 # 4))
                                 (start block + shift))) as [[H2 E2]|[H2 E2]];
        lra. }
    split; [|reflexivity].
    rewrite (round_quarter_ext _ _ En). apply round_quarter_grid_value, Gs.
  - assert (En : Math.max (start block + (1 # 4)) (Math.min 24 (end_ block + shift))
                 == end_ block).
    { destruct (min_cases 24 (end_ block + shift)) as [[H1 E1]|[H1 E1]];
        destruct (max_cases (start block + (1 # 4))
                    (Math.min 24 (end_ block + shift))) as [[H2 E2]|[H2 E2]];
        lra. }
    split; [reflexivity|].
    rewrite (round_quarter_ext _ _ En). apply round_quarter_grid_value, Ge.
Qed.

Lemma press_without_move_witness :
  exists updates,
    handleMouseMove (handleStartDrag idleDrag sample_blocks (Some resize_end) "a" 640)
      sample_blocks 1000 640 = Some ("a"%string, updates) /\
    end_ (spread (mkBlock "a" 9 17 "Work" "#E6F3FF" "work") updates) == 17.
Proof.
  destruct (press_without_move resize_end idleDrag sample_blocks 1000 640 "a"
              (mkBlock "a" 9 17 "Work" "#E6F3FF" "work"))
    as (u & Hm & _ & He).
  - discriminate.
  - exact sample_a_found.
  - unfold Qlt; simpl; lia.
  - exists 36%Z. reflexivity.
  - exists 68%Z. reflexivity.
  - unfold Qle; simpl; lia.
  - unfold Qle; simpl; lia.
  - unfold Qle; simpl; lia.
  - exists u. split; [exact Hm | exact He].
Defined.



(** ** More on the commit policy *)

(** The pending calls once the callbacks waiting for a frame have run. *)
Lemma run_frames_app (fs gs ts : list (nat * Call)) :
  run_frames (fs ++ gs) ts = run_frames gs (run_frames fs ts).
Proof. unfold run_frames. apply fold_left_app. Qed.

Lemma coalesce_run (calendar : string) (bounds_width : Q)
  (st : list TimeBlockData) (ty : DragType) (target : string)
  (block : TimeBlockData) (x0 : Q) (es : list Event) :
  target <> EmptyString ->
  blocks_find (blocks_of calendar st) target = Some block ->
  Forall move_or_frame es ->
  let ds := mkDrag (Some ty) (Some target) x0 (start block) (end_ block) in
  let proposal x := (id block, drag_updates ds block (timeShift bounds_width x0 x)) in
  forall fs ts pending,
    run_frames fs ts = pending ->
    (pending = [] \/ exists c, pending = [(O, c)]) ->
    let s := run calendar bounds_width (mkState st ds O fs ts []) es in
    store s = st /\ dragState s = ds /\ instance s = O /\ commits s = [] /\
    run_frames (frames s) (timers s)
    = match last_move es with
      | Some x => [(O, proposal x)]
      | None => pending
      end.
Proof.
  intros Ne Hf Hes ds proposal.
  induction Hes as [|e rest He Hrest IH]; intros fs ts pending Hp Hshape.
  - cbn. repeat split. exact Hp.
  - destruct e as [| x | | | | | |]; try contradiction.
    + assert (Estep : step calendar bounds_width (mkState st ds O fs ts []) (MouseMove x)
                      = mkState st ds O (fs ++ [(O, proposal x)]) ts []).
      { apply (step_MouseMove_found calendar bounds_width
                 (mkState st ds O fs ts []) ty target block x);
          [reflexivity | reflexivity | exact Ne | exact Hf]. }
      unfold run. cbn [fold_left]. rewrite Estep.
      assert (Hp' : run_frames (fs ++ [(O, proposal x)]) ts = [(O, proposal x)]).
      { rewrite run_frames_app, Hp. unfold run_frames. cbn [fold_left fst snd].
        destruct Hshape as [-> | [c ->]]; reflexivity. }
      destruct (IH (fs ++ [(O, proposal x)]) ts [(O, proposal x)] Hp'
                  (or_intror (ex_intro _ (proposal x) eq_refl)))
        as (A & B & C & D & E).
      unfold run in A, B, C, D, E.
      repeat (split; [assumption|]).
      rewrite E. cbn [last_move]. destruct (last_move rest); reflexivity.
    + unfold run. cbn [fold_left step store dragState instance frames timers commits].
      destruct (IH [] (run_frames fs ts) pending Hp Hshape) as (A & B & C & D & E).
      unfold run in A, B, C, D, E.
      repeat (split; [assumption|]).
      rewrite E. cbn [last_move]. destruct (last_move rest); reflexivity.
Qed.

(** X7: within one debounce window, that is as long as no debounce timer
    expires between the press and the last animation frame, the pointer
    moves of a gesture coalesce, however many they are and however they fall
    into animation frames: after the frame that follows them the only armed
    timer holds the proposal of the latest move, the store has received
    nothing, and the expiry of that timer makes exactly one commit, the
    proposal of the latest move. *)
Theorem moves_coalesce (calendar : string) (bounds_width : Q)
  (st : list TimeBlockData) (ty : DragType) (target : string)
  (block : TimeBlockData) (x0 x : Q) (es : list Event) :
  target <> EmptyString ->
  blocks_find (blocks_of calendar st) target = Some block ->
  0 < bounds_width ->
  Forall move_or_frame es ->
  last_move es = Some x ->
  let ds := mkDrag (Some ty) (Some target) x0 (start block) (end_ block) in
  let last := (id block, drag_updates ds block (timeShift bounds_width x0 x)) in
  let s := run calendar bounds_width (at_rest st)
             (StartDrag ty target x0 :: es ++ [AnimationFrame]) in
  timers s = [(O, last)] /\ frames s = [] /\ commits s = [] /\ store s = st /\
  let s' := step calendar bounds_width s (TimerExpired 0) in
  commits s' = [last] /\ timers s' = [] /\
  store s' = onUpdateBlock (fst last) (snd last) st.
Proof.
  intros Ne Hf Hw Hes Hl ds last s.
  assert (Estart : step calendar bounds_width (at_rest st) (StartDrag ty target x0)
                   = mkState st ds O [] [] []).
  { cbn [step at_rest store dragState instance frames timers commits].
    unfold handleStartDrag. rewrite Hf. reflexivity. }
  destruct (coalesce_run calendar bounds_width st ty target block x0 es Ne Hf Hes
              [] [] [] eq_refl (or_introl eq_refl)) as (A & B & C & D & E).
  rewrite Hl in E.
  set (mid := run calendar bounds_width (mkState st ds O [] [] []) es) in *.
  assert (Es : s = step calendar bounds_width mid AnimationFrame).
  { unfold s, run. cbn [fold_left]. rewrite Estart, fold_left_app. reflexivity. }
  assert (Et : timers s = [(O, last)]) by (rewrite Es; cbn [step timers]; exact E).
  assert (Ec : commits s = []) by (rewrite Es; exact D).
  assert (Est : store s = st) by (rewrite Es; exact A).
  split; [exact Et|]. split; [rewrite Es; reflexivity|].
  split; [exact Ec|]. split; [exact Est|].
  cbn [step]. rewrite Et. cbn [pending_call Nat.eqb].
  cbn [commit commits timers store disarm filter fst snd Nat.eqb negb].
  rewrite Ec, Est. repeat split.
Qed.

Lemma moves_coalesce_witness :
  0 < 1000 /\
  List.length
    (commits
       (step "work" 1000
          (run "work" 1000 (at_rest [work_block])
             (StartDrag move "work-block" 100 :: five_moves ++ [AnimationFrame]))
          (TimerExpired 0))) = 1%nat.
Proof.
  assert (Hw : 0 < 1000) by (unfold Qlt; simpl; lia).
  split; [exact Hw|].
  destruct (moves_coalesce "work" 1000 [work_block] move "work-block" work_block
              100 150 five_moves)
    as (_ & _ & _ & _ & C & _).
  - discriminate.
  - reflexivity.
  - exact Hw.
  - repeat constructor.
  - reflexivity.
  - rewrite C. reflexivity.
Defined.

Lemma drag_updates_time_only (ds : DragState) (block : TimeBlockData) (shift : Q) :
  time_only (drag_updates ds block shift).
Proof.
  unfold drag_updates, time_only.
  destruct (type ds) as [[| |]|]; cbn; repeat split.
Qed.

Lemma same_but_times_update (i : string) (u : PartialBlock)
  (prev : list TimeBlockData) :
  time_only u -> Forall2 same_but_times prev (onUpdateBlock i u prev).
Proof.
  intros (Hi & Hl & Hc & Hk). unfold onUpdateBlock.
  induction prev as [|b rest IH]; cbn [map]; constructor; [|exact IH].
  destruct (String.eqb (id b) i); unfold same_but_times, spread; cbn.
  - rewrite Hi, Hl, Hc, Hk. repeat split.
  - repeat split.
Qed.

Lemma same_but_times_trans (l1 l2 l3 : list TimeBlockData) :
  Forall2 same_but_times l1 l2 -> Forall2 same_but_times l2 l3 ->
  Forall2 same_but_times l1 l3.
Proof.
  intro H. revert l3. induction H as [|a b l1 l2 Hab H12 IH]; intros l3 H23.
  - inversion H23. constructor.
  - inversion H23 as [|? c ? l3' Hbc H23']; subst.
    constructor; [|apply IH, H23'].
    destruct Hab as (A1 & A2 & A3 & A4), Hbc as (B1 & B2 & B3 & B4).
    unfold same_but_times. repeat split; congruence.
Qed.

Lemma same_but_times_refl (l : list TimeBlockData) : Forall2 same_but_times l l.
Proof.
  induction l; constructor; [unfold same_but_times; repeat split | assumption].
Qed.

(** X8: the pointer changes nothing but times.  From a timeline at rest and
    along any sequence of presses, pointer moves, animation frames, timer
    expiries and releases, the store keeps its blocks, in number and order,
    each with its id, label, colour and calendar; every commit made carries
    times only. *)
Theorem pointer_changes_times_only (calendar : string) (bounds_width : Q)
  (st : list TimeBlockData) (es : list Event) :
  Forall pointer_event es ->
  let s := run calendar bounds_width (at_rest st) es in
  Forall2 same_but_times st (store s) /\
  List.length (store s) = List.length st /\
  map id (store s) = map id st /\
  Forall (fun c => time_only (snd c)) (commits s).
Proof.
  intros Hes s.
  assert (Inv : Forall2 same_but_times st (store s) /\
                Forall (fun f => time_only (snd (snd f))) (frames s) /\
                Forall (fun t => time_only (snd (snd t))) (timers s) /\
                Forall (fun c => time_only (snd c)) (commits s)).
  { unfold s, run.
    assert (H0 : Forall2 same_but_times st (store (at_rest st)) /\
                 Forall (fun f => time_only (snd (snd f))) (frames (at_rest st)) /\
                 Forall (fun t => time_only (snd (snd t))) (timers (at_rest st)) /\
                 Forall (fun c => time_only (snd c)) (commits (at_rest st))).
    { cbn. split; [apply same_but_times_refl|]. repeat split; constructor. }
    revert H0. generalize (at_rest st).
    induction Hes as [|e rest He Hrest IH]; intros s0 H0; [exact H0|].
    cbn [fold_left]. apply IH. destruct H0 as (S0 & F0 & T0 & C0).
    destruct e as [ty target x | x | | inst | | | |]; try contradiction.
    - cbn [step store frames timers commits]. repeat split; assumption.
    - cbn [step].
      destruct (handleMouseMove (dragState s0) (blocks_of calendar (store s0))
                  bounds_width x) as [c|] eqn:Hm; [|repeat split; assumption].
      cbn [store frames timers commits].
      split; [exact S0|]. split; [|split; assumption].
      apply Forall_app. split; [exact F0|]. constructor; [|constructor].
      cbn [snd]. unfold handleMouseMove in Hm.
      destruct (type (dragState s0)); [|discriminate].
      destruct (truthy_id (blockId (dragState s0))); [|discriminate].
      destruct (blocks_find (blocks_of calendar (store s0)) s1); [|discriminate].
      injection Hm as <-. apply drag_updates_time_only.
    - cbn [step store frames timers commits].
      split; [exact S0|]. split; [constructor|]. split; [|exact C0].
      apply (run_frames_Forall (fun c => time_only (snd c))); assumption.
    - cbn [step]. destruct (pending_call inst (timers s0)) as [c|] eqn:Hp;
        [|repeat split; assumption].
      assert (Hc : time_only (snd c)).
      { apply pending_call_In in Hp. rewrite Forall_forall in T0.
        exact (T0 _ Hp). }
      cbn [commit store frames timers commits].
      split; [|split; [exact F0 | split]].
      + eapply same_but_times_trans; [exact S0|].
        apply same_but_times_update, Hc.
      + unfold disarm. apply Forall_forall. intros t Ht.
        apply filter_In in Ht. rewrite Forall_forall in T0. apply T0, Ht.
      + apply Forall_app. split; [exact C0|]. constructor; [exact Hc|constructor].
    - cbn [step]. destruct (type (dragState s0)); repeat split; assumption. }
  destruct Inv as (S & _ & _ & C).
  split; [exact S|]. split; [symmetry; exact (Forall2_length S)|].
  split; [|exact C].
  clear - S. induction S as [|a b l1 l2 Hab _ IH]; [reflexivity|].
  cbn [map]. rewrite IH. destruct Hab as (E & _). rewrite E. reflexivity.
Qed.

Lemma pointer_changes_times_only_witness :
  Forall pointer_event three_moves_and_release /\
  map id (store (step "work" 1000
                   (run "work" 1000 (at_rest [work_block]) three_moves_and_release)
                   (TimerExpired 0)))
  = ["work-block"%string].
Proof.
  assert (H : Forall pointer_event (three_moves_and_release ++ [TimerExpired 0]))
    by (repeat constructor).
  split; [repeat constructor|].
  destruct (pointer_changes_times_only "work" 1000 [work_block]
              (three_moves_and_release ++ [TimerExpired 0]) H) as (_ & _ & E & _).
  unfold run in E. rewrite fold_left_app in E. exact E.
Defined.

(** ** More on row packing *)

(** The row of a block against the blocks processed before it. *)
Lemma row_of_least (blocks pre post : list TimeBlockData) (b : TimeBlockData) :
  NoDup (map id blocks) ->
  sort_by_start blocks = pre ++ b :: post ->
  (forall a, In a pre -> row_of blocks a = row_of blocks b -> ~ overlap a b) /\
  (forall r, (r < row_of blocks b)%nat ->
             exists a, In a pre /\ row_of blocks a = r /\ overlap a b).
Proof.
  intros ND Es.
  destruct (row_of_at blocks pre post b ND Es) as (NDpre & Kb & Found & Rb & Ra).
  set (before := fst (pack_from blocks ([], O) pre)) in *.
  destruct (find_row_spec blocks before b) as (Free & Least & _).
  rewrite <- Rb in Free, Least. split.
  - intros a Ha Same Ho.
    assert (T : row_taken blocks before b (row_of blocks b) = true).
    { apply (row_taken_iff blocks pre); try assumption.
      exists a. split; [exact Ha|]. split; [|exact Ho].
      rewrite (Ra a Ha), Same. reflexivity. }
    congruence.
  - intros r Hr. pose proof (Least r Hr) as T.
    apply (row_taken_iff blocks pre) in T; try assumption.
    destruct T as (a & Ha & Hg & Ho).
    exists a. split; [exact Ha|]. split; [|exact Ho].
    rewrite (Ra a Ha) in Hg. congruence.
Qed.

Lemma member_position (blocks : list TimeBlockData) (b : TimeBlockData) :
  NoDup (map id blocks) -> In b blocks ->
  exists pre post,
    sort_by_start blocks = pre ++ b :: post /\
    (forall a, In a pre -> In a blocks /\ a <> b /\ start a <= start b).
Proof.
  intros ND Hb.
  pose proof (sort_by_start_perm blocks) as P.
  assert (Hs : In b (sort_by_start blocks)) by (eapply Permutation_in; eassumption).
  apply in_split in Hs. destruct Hs as (pre & post & Es).
  exists pre, post. split; [exact Es|].
  intros a Ha.
  assert (NDs : NoDup (sort_by_start blocks)).
  { eapply Permutation_NoDup; [exact P|]. eapply NoDup_map_inv, ND. }
  pose proof (sort_by_start_sorted blocks) as S.
  rewrite Es in NDs, S. split; [|split].
  - eapply Permutation_in; [apply Permutation_sym, P|].
    rewrite Es. apply in_or_app. left. exact Ha.
  - intros ->. apply NoDup_remove_2 in NDs. apply NDs, in_or_app. left. exact Ha.
  - clear - S Ha. induction pre as [|p pre IH]; [contradiction|].
    cbn in S. inversion S as [|? ? Srest Hall]; subst.
    destruct Ha as [->|Ha].
    + rewrite Forall_forall in Hall. apply Hall, in_or_app. right. left. reflexivity.
    + apply IH; assumption.
Qed.

Lemma rows_zero_of_disjoint (blocks : list TimeBlockData) :
  NoDup (map id blocks) ->
  (forall a b, In a blocks -> In b blocks -> a <> b -> ~ overlap a b) ->
  forall b, In b blocks -> row_of blocks b = O.
Proof.
  intros ND Dis b Hb.
  destruct (member_position blocks b ND Hb) as (pre & post & Es & Hpre).
  destruct (row_of_least blocks pre post b ND Es) as (_ & Least).
  destruct (row_of blocks b) as [|r] eqn:R; [reflexivity|].
  destruct (Least O ltac:(lia)) as (a & Ha & _ & Ho).
  destruct (Hpre a Ha) as (Hin & Ne & _).
  exfalso. exact (Dis a b Hin Hb Ne Ho).
Qed.

Lemma maxRow_of_rows_zero (blocks : list TimeBlockData) :
  NoDup (map id blocks) ->
  (forall b, In b blocks -> row_of blocks b = O) ->
  maxRow blocks = 3%nat.
Proof.
  intros ND Hz. unfold maxRow, MIN_ROW_COUNT.
  rewrite (maxRowFound_highest blocks ND).
  assert (E : list_max (map (row_of blocks) blocks) = O).
  { assert (L : (list_max (map (row_of blocks) blocks) <= 0)%nat).
    { apply list_max_le. apply Forall_forall. intros r Hr.
      apply in_map_iff in Hr. destruct Hr as (b & <- & Hb).
      rewrite (Hz b Hb). lia. }
    lia. }
  rewrite E. reflexivity.
Qed.

(** X9: a block is only pushed down by blocks that overlap it: in a snapshot
    with distinct ids, every row above the row of a block holds another block
    that overlaps it and starts no later.  So when no two blocks overlap
    every block is drawn in row 0 and the row count is 3. *)
Theorem rows_only_for_overlaps (blocks : list TimeBlockData) :
  NoDup (map id blocks) ->
  (forall b r,
      In b blocks -> (r < row_of blocks b)%nat ->
      exists a, In a blocks /\ a <> b /\ row_of blocks a = r /\
                overlap a b /\ start a <= start b) /\
  ((forall a b, In a blocks -> In b blocks -> a <> b -> ~ overlap a b) ->
   (forall b, In b blocks -> row_of blocks b = O) /\ maxRow blocks = 3%nat).
Proof.
  intro ND. split.
  - intros b r Hb Hr.
    destruct (member_position blocks b ND Hb) as (pre & post & Es & Hpre).
    destruct (row_of_least blocks pre post b ND Es) as (_ & Least).
    destruct (Least r Hr) as (a & Ha & Hra & Ho).
    destruct (Hpre a Ha) as (Hin & Ne & Hs).
    exists a. split; [exact Hin|]. split; [exact Ne|]. split; [exact Hra|].
    split; [exact Ho | exact Hs].
  - intro Dis.
    pose proof (rows_zero_of_disjoint blocks ND Dis) as Hz.
    split; [exact Hz | apply maxRow_of_rows_zero; assumption].
Qed.

Lemma morning_and_evening_distinct : NoDup (map id morning_and_evening).
Proof. repeat constructor; cbn; intuition discriminate. Defined.

Lemma morning_and_evening_disjoint (a b : TimeBlockData) :
  In a morning_and_evening -> In b morning_and_evening -> a <> b -> ~ overlap a b.
Proof.
  intros [<-|[<-|[]]] [<-|[<-|[]]] Ne [H1 H2]; try congruence;
    unfold Qlt in *; cbn in *; lia.
Defined.

Lemma rows_only_for_overlaps_witness :
  NoDup (map id morning_and_evening) /\ maxRow morning_and_evening = 3%nat.
Proof.
  split; [exact morning_and_evening_distinct|].
  apply (proj2 (rows_only_for_overlaps morning_and_evening
                  morning_and_evening_distinct) morning_and_evening_disjoint).
Defined.

(** X10: the overlap test of the packing loop never holds between two blocks
    that both cross midnight ([end <= start]), although both cover midnight.
    A snapshot with distinct ids that holds only such blocks is therefore
    drawn entirely in row 0. *)
Theorem wrapping_blocks_share_row (blocks : list TimeBlockData) :
  (forall a b, end_ a <= start a -> end_ b <= start b -> ~ overlap a b) /\
  (NoDup (map id blocks) ->
   (forall b, In b blocks -> end_ b <= start b) ->
   (forall b, In b blocks -> row_of blocks b = O) /\ maxRow blocks = 3%nat).
Proof.
  assert (W : forall a b, end_ a <= start a -> end_ b <= start b -> ~ overlap a b).
  { intros a b Ha Hb [H1 H2]. lra. }
  split; [exact W|].
  intros ND Hw.
  assert (Hz : forall b, In b blocks -> row_of blocks b = O).
  { apply rows_zero_of_disjoint; [exact ND|].
    intros a b Ha Hb _. apply W; apply Hw; assumption. }
  split; [exact Hz | apply maxRow_of_rows_zero; assumption].
Qed.

Lemma two_nights_distinct : NoDup (map id two_nights).
Proof. repeat constructor; cbn; intuition discriminate. Defined.

Lemma wrapping_blocks_share_row_witness :
  NoDup (map id two_nights) /\
  (forall b, In b two_nights -> row_of two_nights b = O).
Proof.
  split; [exact two_nights_distinct|].
  apply (proj2 (wrapping_blocks_share_row two_nights) two_nights_distinct).
  intros b [<-|[<-|[]]]; unfold Qle; cbn; lia.
Defined.

Lemma same_row_no_overlap (blocks : list TimeBlockData) (a b : TimeBlockData) :
  NoDup (map id blocks) ->
  In a blocks -> In b blocks -> a <> b ->
  row_of blocks a = row_of blocks b -> ~ overlap a b.
Proof.
  intros ND Ha Hb Ne Same.
  pose proof (sort_by_start_perm blocks) as P.
  destruct (two_members (sort_by_start blocks) a b) as (l1 & x & l2 & y & l3 & Es & Hxy);
    try (eapply Permutation_in; [exact P|assumption]); [exact Ne|].
  destruct (row_of_least blocks (l1 ++ x :: l2) l3 y ND) as (NoClash & _).
  { rewrite Es, <- app_assoc. reflexivity. }
  assert (Hx : In x (l1 ++ x :: l2)) by (apply in_or_app; right; left; reflexivity).
  destruct Hxy as [[-> ->]|[-> ->]].
  - apply NoClash; assumption.
  - intro Ho. apply (NoClash b Hx); [symmetry; exact Same|].
    apply overlap_sym, Ho.
Qed.

Lemma distinct_below (l : list nat) (m : nat) :
  NoDup l -> (forall r, In r l -> (r < m)%nat) -> (List.length l <= m)%nat.
Proof.
  intros ND Hb.
  assert (H : (List.length l <= List.length (seq 0 m))%nat).
  { apply NoDup_incl_length; [exact ND|].
    intros r Hr. apply in_seq. specialize (Hb r Hr). lia. }
  rewrite length_seq in H. exact H.
Qed.

(** X11: the row count never exceeds the number of blocks, or 3 when there
    are fewer.  It reaches that number when the ids are distinct and every
    two blocks overlap: the blocks then all sit in different rows. *)
Theorem row_count_bounds (blocks : list TimeBlockData) :
  (maxRow blocks <= Nat.max 3 (List.length blocks))%nat /\
  (NoDup (map id blocks) ->
   (forall a b, In a blocks -> In b blocks -> a <> b -> overlap a b) ->
   NoDup (map (row_of blocks) blocks) /\
   maxRow blocks = Nat.max 3 (List.length blocks)).
Proof.
  pose proof (maxRowFound_bound blocks) as Up.
  split; [unfold maxRow, MIN_ROW_COUNT; lia|].
  intros ND All.
  assert (NDb : NoDup blocks) by (eapply NoDup_map_inv, ND).
  assert (NDr : NoDup (map (row_of blocks) blocks)).
  { assert (Inj : forall l, NoDup l -> incl l blocks ->
                            NoDup (map (row_of blocks) l)).
    { induction l as [|x l IH]; intros NDl Hin; [constructor|].
      inversion NDl as [|? ? Nx NDl']; subst. cbn [map]. constructor.
      - intro Hr. apply in_map_iff in Hr. destruct Hr as (y & Ey & Hy).
        assert (Ne : y <> x) by (intros ->; exact (Nx Hy)).
        apply (same_row_no_overlap blocks y x ND); try assumption.
        + apply Hin. right. exact Hy.
        + apply Hin. left. reflexivity.
        + apply All; [apply Hin; right; exact Hy | apply Hin; left; reflexivity
                      | exact Ne].
      - apply IH; [exact NDl'|]. intros z Hz. apply Hin. right. exact Hz. }
    apply Inj; [exact NDb | apply incl_refl]. }
  split; [exact NDr|].
  assert (Low : (List.length blocks <= maxRowFound blocks + 1)%nat).
  { rewrite <- (length_map (row_of blocks)).
    apply distinct_below; [exact NDr|].
    intros r Hr. apply in_map_iff in Hr. destruct Hr as (b & <- & _).
    pose proof (row_of_le_maxRowFound blocks b). lia. }
  unfold maxRow, MIN_ROW_COUNT. lia.
Qed.

Lemma four_meetings_distinct : NoDup (map id four_meetings).
Proof. repeat constructor; cbn; intuition discriminate. Defined.

Lemma four_meetings_overlap (a b : TimeBlockData) :
  In a four_meetings -> In b four_meetings -> a <> b -> overlap a b.
Proof.
  intros [<-|[<-|[<-|[<-|[]]]]] [<-|[<-|[<-|[<-|[]]]]] Ne;
    try congruence; split; unfold Qlt; cbn; lia.
Defined.

Lemma row_count_bounds_witness :
  NoDup (map id four_meetings) /\ maxRow four_meetings = 4%nat.
Proof.
  split; [exact four_meetings_distinct|].
  destruct (proj2 (row_count_bounds four_meetings) four_meetings_distinct
              four_meetings_overlap) as (_ & E).
  exact E.
Defined.

(** ** Adding a block at the end of the day *)

Lemma insert_by_start_last (x b : TimeBlockData) (l : list TimeBlockData) :
  start x <= start b ->
  insert_by_start x (l ++ [b]) = insert_by_start x l ++ [b].
Proof.
  intro H. induction l as [|y ys IH]; cbn [insert_by_start app].
  - apply Qle_bool_iff in H. rewrite H. reflexivity.
  - destruct (Qle_bool (start x) (start y)); [reflexivity|].
    rewrite IH. reflexivity.
Qed.

Lemma sort_by_start_last (blocks : list TimeBlockData) (b : TimeBlockData) :
  (forall a, In a blocks -> start a <= start b) ->
  sort_by_start (blocks ++ [b]) = sort_by_start blocks ++ [b].
Proof.
  induction blocks as [|x l IH]; intro H; [reflexivity|].
  cbn [sort_by_start app fold_right].
  fold (sort_by_start (l ++ [b])). fold (sort_by_start l).
  rewrite IH by (intros a Ha; apply H; right; exact Ha).
  apply insert_by_start_last, H. left. reflexivity.
Qed.

Lemma Map_set_keys (k : string) (v : nat) (rows : RowMap) (k' : string) :
  In k' (map fst (Map_set k v rows)) -> k' = k \/ In k' (map fst rows).
Proof.
  induction rows as [|[k0 v0] rest IH]; cbn.
  - intros [H|[]]. left. symmetry. exact H.
  - destruct (String.eqb k0 k); cbn.
    + intros [H|H]; [left; symmetry; exact H | right; right; exact H].
    + intros [H|H]; [right; left; exact H|].
      destruct (IH H) as [E|E]; [left; exact E | right; right; exact E].
Qed.

Lemma row_taken_ext (B B' : list TimeBlockData) (rows : RowMap)
  (block : TimeBlockData) (row : nat) :
  (forall k, In k (map fst rows) -> blocks_find B' k = blocks_find B k) ->
  row_taken B' rows block row = row_taken B rows block row.
Proof.
  intro H. unfold row_taken.
  induction rows as [|e rest IH]; [reflexivity|].
  cbn [existsb]. rewrite (H (fst e)) by (left; reflexivity).
  rewrite IH; [reflexivity|]. intros k Hk. apply H. right. exact Hk.
Qed.

Lemma find_row_ext (B B' : list TimeBlockData) (rows : RowMap)
  (block : TimeBlockData) :
  (forall k, In k (map fst rows) -> blocks_find B' k = blocks_find B k) ->
  find_row B' rows block = find_row B rows block.
Proof.
  intro H. unfold find_row.
  generalize (S (List.length rows)) as fuel. generalize O as row.
  intros row fuel. revert row.
  induction fuel as [|fuel IH]; intro row; [reflexivity|].
  cbn [find_row_from]. rewrite (row_taken_ext B B' rows block row H).
  destruct (row_taken B rows block row); [apply IH | reflexivity].
Qed.

Lemma pack_from_ext (B B' : list TimeBlockData) (l : list TimeBlockData) :
  forall st,
    (forall k, In k (map fst (fst st)) \/ In k (map id l) ->
               blocks_find B' k = blocks_find B k) ->
    pack_from B' st l = pack_from B st l.
Proof.
  induction l as [|x l IH]; intros st H; [reflexivity|].
  cbn [pack_from fold_left].
  fold (pack_from B' (place_block B' st x) l).
  fold (pack_from B (place_block B st x) l).
  assert (E : place_block B' st x = place_block B st x).
  { unfold place_block. rewrite (find_row_ext B B' (fst st) x); [reflexivity|].
    intros k Hk. apply H. left. exact Hk. }
  rewrite E. apply IH. intros k [Hk|Hk].
  - unfold place_block in Hk. cbn [fst] in Hk.
    apply Map_set_keys in Hk. destruct Hk as [->|Hk].
    + apply H. right. left. reflexivity.
    + apply H. left. exact Hk.
  - apply H. right. right. exact Hk.
Qed.

Lemma blocks_find_app_l (blocks extra : list TimeBlockData) (k : string) :
  In k (map id blocks) ->
  blocks_find (blocks ++ extra) k = blocks_find blocks k.
Proof.
  unfold blocks_find. induction blocks as [|b rest IH]; cbn; intro H; [contradiction|].
  destruct (String.eqb_spec (id b) k) as [E|E]; [reflexivity|].
  apply IH. destruct H as [H|H]; [contradiction | exact H].
Qed.

Lemma Map_get_set_other (k k' : string) (v : nat) (rows : RowMap) :
  k' <> k -> Map_get k' (Map_set k v rows) = Map_get k' rows.
Proof.
  intro Ne. induction rows as [|[k0 v0] rest IH]; cbn.
  - destruct (String.eqb_spec k k'); [congruence | reflexivity].
  - destruct (String.eqb_spec k0 k) as [E|E]; cbn.
    + subst k0. destruct (String.eqb_spec k k'); [congruence | reflexivity].
    + destruct (String.eqb_spec k0 k'); [reflexivity | exact IH].
Qed.

(** X12: a new block that starts no earlier than any block of the snapshot
    (and has a new id) is processed last: appending it to the snapshot leaves
    every other block in the row it had, and the new block goes to the first
    row in which none of them overlaps it. *)
Theorem later_block_keeps_rows (blocks : list TimeBlockData) (b : TimeBlockData) :
  ~ In (id b) (map id blocks) ->
  (forall a, In a blocks -> start a <= start b) ->
  sort_by_start (blocks ++ [b]) = sort_by_start blocks ++ [b] /\
  (forall a, In a blocks -> row_of (blocks ++ [b]) a = row_of blocks a) /\
  blockRows (blocks ++ [b])
  = Map_set (id b) (find_row blocks (blockRows blocks) b) (blockRows blocks) /\
  (maxRow blocks <= maxRow (blocks ++ [b]))%nat.
Proof.
  intros Fresh Late.
  pose proof (sort_by_start_last blocks b Late) as Es.
  assert (Ids : forall k, In k (map id (sort_by_start blocks)) ->
                          In k (map id blocks)).
  { intros k Hk. eapply Permutation_in; [|exact Hk].
    apply Permutation_map, Permutation_sym, sort_by_start_perm. }
  assert (Ep : pack_from (blocks ++ [b]) ([], O) (sort_by_start blocks)
               = pack blocks).
  { unfold pack. apply pack_from_ext. intros k [[]|Hk].
    apply blocks_find_app_l, Ids, Hk. }
  assert (Keys : forall k, In k (map fst (fst (pack blocks))) -> In k (map id blocks)).
  { intros k Hk. unfold pack in Hk.
    assert (G : forall l st,
               (forall k, In k (map fst (fst st)) -> In k (map id blocks)) ->
               (forall k, In k (map id l) -> In k (map id blocks)) ->
               forall k, In k (map fst (fst (pack_from blocks st l))) ->
                         In k (map id blocks)).
    { induction l as [|x l IH]; intros st Hst Hl k0 Hk0; [exact (Hst k0 Hk0)|].
      cbn [pack_from fold_left] in Hk0.
      fold (pack_from blocks (place_block blocks st x) l) in Hk0.
      apply (IH (place_block blocks st x)); [| |exact Hk0].
      - intros k1 Hk1. unfold place_block in Hk1. cbn [fst] in Hk1.
        apply Map_set_keys in Hk1. destruct Hk1 as [->|Hk1].
        + apply Hl. left. reflexivity.
        + apply Hst, Hk1.
      - intros k1 Hk1. apply Hl. right. exact Hk1. }
    apply (G (sort_by_start blocks) ([], O)); [intros ? [] | exact Ids | exact Hk]. }
  assert (Er : find_row (blocks ++ [b]) (fst (pack blocks)) b
               = find_row blocks (blockRows blocks) b).
  { apply find_row_ext. intros k Hk. apply blocks_find_app_l, Keys, Hk. }
  assert (Eall : pack (blocks ++ [b])
                 = place_block (blocks ++ [b]) (pack blocks) b).
  { unfold pack at 1. rewrite Es, pack_from_app, Ep. reflexivity. }
  assert (Erows : blockRows (blocks ++ [b])
                  = Map_set (id b) (find_row blocks (blockRows blocks) b)
                      (blockRows blocks)).
  { unfold blockRows at 1. rewrite Eall. unfold place_block. cbn [fst].
    rewrite Er. reflexivity. }
  split; [exact Es|]. split; [|split; [exact Erows|]].
  - intros a Ha. unfold row_of. rewrite Erows, Map_get_set_other; [reflexivity|].
    intro E. apply Fresh. rewrite <- E. apply in_map, Ha.
  - unfold maxRow, maxRowFound. rewrite Eall. unfold place_block. cbn [snd]. lia.
Qed.

Lemma later_block_keeps_rows_witness :
  row_of (sample_blocks ++ [mkBlock "d" 16 18 "Call" "#E6F3FF" "work"])
    (mkBlock "b" 10 12 "Review" "#E6F3FF" "work")
  = row_of sample_blocks (mkBlock "b" 10 12 "Review" "#E6F3FF" "work").
Proof.
  destruct (later_block_keeps_rows sample_blocks
              (mkBlock "d" 16 18 "Call" "#E6F3FF" "work")) as (_ & R & _).
  - cbn. intuition discriminate.
  - intros a [<-|[<-|[<-|[]]]]; unfold Qle; cbn; lia.
  - apply R. right. left. reflexivity.
Defined.

(** ** The drawing of the blocks *)

Lemma TimeBlock_segments (block : TimeBlockData) (row : nat) (seg : Segment) :
  In seg (TimeBlock block row) ->
  seg_block seg = id block /\
  seg_top seg = TOP_MARGIN + inject_Z (Z.of_nat row) * ROW_HEIGHT /\
  seg_left seg = (seg_start seg / 24) * 100 /\
  seg_width seg = ((seg_end seg - seg_start seg) / 24) * 100 /\
  ((end_ block < start block /\
    ((seg_start seg = start block /\ seg_end seg = 24 /\ isSecondPart seg = false) \/
     (seg_start seg = 0 /\ seg_end seg = end_ block /\ isSecondPart seg = true))) \/
   (start block <= end_ block /\
    seg_start seg = start block /\ seg_end seg = end_ block /\
    isSecondPart seg = false)).
Proof.
  unfold TimeBlock. destruct (spansMidnight block) eqn:W.
  - apply spansMidnight_iff in W.
    intros [<-|[<-|[]]]; (do 4 (split; [reflexivity|])); left;
      (split; [exact W|]); [left | right];
      (split; [reflexivity|]); split; reflexivity.
  - apply Qltb_ge in W.
    intros [<-|[]]. do 4 (split; [reflexivity|]). right.
    split; [exact W|]. split; [reflexivity|]. split; reflexivity.
Qed.

(** X13: every segment drawn for a block whose start and end lie within
    [0,24] stays inside the timeline: its left edge and its width are not
    negative and it ends at or before 100% of the width; it sits below the
    top margin, and a full row height above the bottom padding of the
    container, whose height is at least 140 pixels.  The two segments of a
    block that crosses midnight do not intersect. *)
Theorem segments_inside_timeline (blocks : list TimeBlockData)
  (block : TimeBlockData) (seg : Segment) :
  In seg (TimeBlock block (row_of blocks block)) ->
  0 <= start block -> start block <= 24 ->
  0 <= end_ block -> end_ block <= 24 ->
  0 <= seg_left seg /\ 0 <= seg_width seg /\
  seg_left seg + seg_width seg <= 100 /\
  TOP_MARGIN <= seg_top seg /\
  seg_top seg + ROW_HEIGHT + BOTTOM_PADDING <= timeline_height blocks /\
  140 <= timeline_height blocks /\
  (forall other,
      In other (TimeBlock block (row_of blocks block)) ->
      isSecondPart other = true -> isSecondPart seg = false ->
      seg_left other + seg_width other <= seg_left seg).
Proof.
  intros Hseg S0 S24 E0 E24.
  destruct (TimeBlock_segments _ _ _ Hseg) as (_ & Etop & Eleft & Ewidth & Shape).
  pose proof (row_of_le_maxRowFound blocks block) as Hrow.
  assert (Hmax : (row_of blocks block + 1 <= maxRow blocks)%nat)
    by (unfold maxRow; lia).
  assert (H3 : (3 <= maxRow blocks)%nat) by (unfold maxRow, MIN_ROW_COUNT; lia).
  assert (Qrow : inject_Z (Z.of_nat (row_of blocks block)) + 1
                 <= inject_Z (Z.of_nat (maxRow blocks))).
  { rewrite <- inject_Z_succ. apply Z_to_Q_le. lia. }
  assert (Q0 : 0 <= inject_Z (Z.of_nat (row_of blocks block)))
    by (apply (Z_to_Q_le 0); lia).
  assert (Q3 : 3 <= inject_Z (Z.of_nat (maxRow blocks)))
    by (apply (Z_to_Q_le 3); lia).
  rewrite Eleft, Ewidth, Etop.
  unfold timeline_height, TOP_MARGIN, ROW_HEIGHT, BOTTOM_PADDING.
  assert (Range : 0 <= seg_start seg /\ seg_start seg <= seg_end seg /\
                  seg_end seg <= 24).
  { destruct Shape as [(W & [(-> & -> & _)|(-> & -> & _)])|(W & -> & -> & _)];
      repeat split; lra. }
  destruct Range as (R0 & R1 & R2).
  split; [qlra|]. split; [qlra|]. split; [qlra|]. split; [lra|].
  split; [lra|]. split; [lra|].
  intros other Hother Hsecond Hfirst.
  destruct (TimeBlock_segments _ _ _ Hother) as (_ & _ & Oleft & Owidth & Oshape).
  rewrite Oleft, Owidth.
  destruct Oshape as [(W & [(_ & _ & F)|(-> & -> & _)])|(_ & _ & _ & F)];
    try congruence.
  destruct Shape as [(_ & [(Hs & _ & _)|(_ & _ & F)])|(W' & _)];
    [rewrite Hs; qlra | congruence | lra].
Qed.

Lemma segments_inside_timeline_witness :
  In (renderBlock sleep_block 0 23 24 false)
     (TimeBlock sleep_block (row_of [sleep_block] sleep_block)) /\
  seg_left (renderBlock sleep_block 0 23 24 false)
  + seg_width (renderBlock sleep_block 0 23 24 false) <= 100.
Proof.
  assert (Hseg : In (renderBlock sleep_block 0 23 24 false)
                    (TimeBlock sleep_block (row_of [sleep_block] sleep_block)))
    by (left; reflexivity).
  split; [exact Hseg|].
  apply (segments_inside_timeline [sleep_block] sleep_block _ Hseg);
    unfold Qle; cbn; lia.
Defined.

(** X14: in a snapshot with distinct ids, the segments of two different
    blocks that do not cross midnight never intersect when they are drawn at
    the same height: one of them ends at or before the left edge of the
    other. *)
Theorem same_row_segments_apart (blocks : list TimeBlockData)
  (a b : TimeBlockData) (sa sb : Segment) :
  NoDup (map id blocks) ->
  In a blocks -> In b blocks -> a <> b ->
  start a <= end_ a -> start b <= end_ b ->
  In sa (TimeBlock a (row_of blocks a)) ->
  In sb (TimeBlock b (row_of blocks b)) ->
  seg_top sa == seg_top sb ->
  seg_left sa + seg_width sa <= seg_left sb \/
  seg_left sb + seg_width sb <= seg_left sa.
Proof.
  intros ND Ha Hb Ne Wa Wb Hsa Hsb Htop.
  destruct (TimeBlock_segments _ _ _ Hsa) as (_ & Ta & La & Wda & Sa).
  destruct (TimeBlock_segments _ _ _ Hsb) as (_ & Tb & Lb & Wdb & Sb).
  assert (Same : row_of blocks a = row_of blocks b).
  { rewrite Ta, Tb in Htop. unfold TOP_MARGIN, ROW_HEIGHT in Htop.
    assert (E : inject_Z (Z.of_nat (row_of blocks a))
                == inject_Z (Z.of_nat (row_of blocks b))) by lra.
    apply Nat2Z.inj, (proj1 (inject_Z_injective _ _)), E. }
  pose proof (same_row_no_overlap blocks a b ND Ha Hb Ne Same) as No.
  destruct Sa as [(W & _)|(_ & Sa1 & Sa2 & _)]; [lra|].
  destruct Sb as [(W & _)|(_ & Sb1 & Sb2 & _)]; [lra|].
  rewrite La, Wda, Lb, Wdb, Sa1, Sa2, Sb1, Sb2.
  destruct (Qlt_le_dec (start a) (end_ b)) as [D1|D1].
  - destruct (Qlt_le_dec (start b) (end_ a)) as [D2|D2].
    + exfalso. apply No. split; assumption.
    + left. qlra.
  - right. qlra.
Qed.

Lemma same_row_segments_apart_witness :
  let a := mkBlock "a" 9 17 "Work" "#E6F3FF" "work" in
  let c := mkBlock "c" 0 5 "Sleep" "#E6F3FF" "work" in
  seg_top (renderBlock a 0 9 17 false) == seg_top (renderBlock c 0 0 5 false) /\
  (seg_left (renderBlock a 0 9 17 false) + seg_width (renderBlock a 0 9 17 false)
   <= seg_left (renderBlock c 0 0 5 false) \/
   seg_left (renderBlock c 0 0 5 false) + seg_width (renderBlock c 0 0 5 false)
   <= seg_left (renderBlock a 0 9 17 false)).
Proof.
  intros a c.
  assert (Htop : seg_top (renderBlock a 0 9 17 false)
                 == seg_top (renderBlock c 0 0 5 false)) by reflexivity.
  split; [exact Htop|].
  apply (same_row_segments_apart sample_blocks a c _ _ sample_blocks_distinct).
  - left. reflexivity.
  - right. right. left. reflexivity.
  - discriminate.
  - unfold Qle; cbn; lia.
  - unfold Qle; cbn; lia.
  - left. reflexivity.
  - left. reflexivity.
  - exact Htop.
Defined.

(** ** The time picker: opening and editing *)

Lemma rem1_nonneg (x : Q) : 0 <= x -> TimePickerModal.rem1 x = x - inject_Z (Math.floor x).
Proof.
  intro H. unfold TimePickerModal.rem1.
  apply Qle_bool_iff in H. rewrite H. reflexivity.
Qed.

Lemma picker_field_near (t : Q) :
  0 <= t ->
  let back := inject_Z (Math.floor t)
              + inject_Z (Math.round (TimePickerModal.rem1 t * 60)) / 60 in
  t - (1 # 120) <= back /\ back <= t + (1 # 120) /\
  (forall h m, (0 <= m <= 59)%Z -> t == inject_Z h + inject_Z m / 60 ->
               Math.floor t = h /\
               Math.round (TimePickerModal.rem1 t * 60) = m /\
               back == t).
Proof.
  intros H0 back. unfold back. rewrite (rem1_nonneg t H0).
  destruct (round_bounds ((t - inject_Z (Math.floor t)) * 60)) as [Rl Rh].
  split; [qlra|]. split; [qlra|].
  intros h m Hm Et.
  destruct (format_whole_minutes t h m Hm Et) as [Eh Em].
  unfold format_hours in Eh. unfold format_minutes, format_hours in Em.
  split; [exact Eh|]. split; [exact Em|].
  rewrite Em, Eh, Et. reflexivity.
Qed.

(** X15: the dialog opens on the times of the block.  For a block with start
    and end not negative, the hour and minute fields it shows stand for times
    within half a minute of the block's start and end; when start and end are
    whole minutes ([h + m/60], [m] below 60) the fields are exactly [h] and
    [m], and saving without touching them stores the same start and end and
    changes nothing else of the block. *)
Theorem picker_opens_on_block (block : TimeBlockData) (prev : list TimeBlockData)
  (n : nat) :
  0 <= start block -> 0 <= end_ block ->
  let f := TimePickerModal.openWith block in
  (start block - (1 # 120) <= TimePickerModal.newStart f /\
   TimePickerModal.newStart f <= start block + (1 # 120)) /\
  (end_ block - (1 # 120) <= TimePickerModal.newEnd f /\
   TimePickerModal.newEnd f <= end_ block + (1 # 120)) /\
  (forall sh sm eh em,
      (0 <= sm <= 59)%Z -> (0 <= em <= 59)%Z ->
      start block == inject_Z sh + inject_Z sm / 60 ->
      end_ block == inject_Z eh + inject_Z em / 60 ->
      f = TimePickerModal.mkFields sh sm eh em /\
      (nth_error prev n = Some block ->
       exists block',
         nth_error (TimePickerModal.handleSave block f prev) n = Some block' /\
         start block' == start block /\ end_ block' == end_ block /\
         same_but_times block block')).
Proof.
  intros S0 E0 f.
  destruct (picker_field_near (start block) S0) as (Sl & Sh & Sw).
  destruct (picker_field_near (end_ block) E0) as (El & Eh & Ew).
  split; [split; assumption|]. split; [split; assumption|].
  intros sh sm eh em Hsm Hem Es Ee.
  destruct (Sw sh sm Hsm Es) as (A1 & A2 & A3).
  destruct (Ew eh em Hem Ee) as (B1 & B2 & B3).
  split.
  - unfold f, TimePickerModal.openWith. rewrite A1, A2, B1, B2. reflexivity.
  - intro Hn. unfold TimePickerModal.handleSave, onUpdateTime.
    rewrite onUpdateBlock_nth, Hn. cbn [option_map].
    rewrite String.eqb_refl. eexists. split; [reflexivity|].
    cbn [spread time_update p_start p_end or_else start end_].
    split; [exact A3|]. split; [exact B3|].
    unfold same_but_times. cbn. repeat split.
Qed.

Lemma picker_opens_on_block_witness :
  TimePickerModal.openWith work_block = TimePickerModal.mkFields 9 0 17 0.
Proof.
  destruct (picker_opens_on_block work_block [work_block] 0) as (_ & _ & W).
  - unfold Qle; cbn; lia.
  - unfold Qle; cbn; lia.
  - apply (W 9 0 17 0)%Z; try lia; reflexivity.
Defined.

Lemma edit_in_range (max value : Z) (e : TimePickerModal.Edit) :
  (0 <= max)%Z -> (0 <= value <= max)%Z ->
  (0 <= TimePickerModal.edit max value e <= max)%Z.
Proof.
  intros Hm Hv. destruct e as [| |[val|]]; cbn.
  - unfold TimePickerModal.decrement. destruct (Z.eqb_spec value 0); lia.
  - unfold TimePickerModal.increment. destruct (Z.eqb_spec value max); lia.
  - destruct (Z.leb_spec 0 val), (Z.leb_spec val max); cbn; lia.
  - exact Hv.
Qed.

(** X16: the fields of the dialog stay in range.  A field between 0 and its
    maximum stays there under every use of its input: the buttons wrap
    around at the ends and undo each other, and a typed value is taken only
    when it is a number between 0 and the maximum, and ignored otherwise.  So
    after any sequence of edits of accepted fields the dialog still holds
    hours within 0..23 and minutes within 0..59, and saving stores times
    within [0,24). *)
Theorem time_input_in_range (max value : Z) :
  (0 <= max)%Z -> (0 <= value <= max)%Z ->
  (forall e, 0 <= TimePickerModal.edit max value e <= max)%Z /\
  TimePickerModal.increment max (TimePickerModal.decrement max value) = value /\
  TimePickerModal.decrement max (TimePickerModal.increment max value) = value /\
  TimePickerModal.decrement max 0 = max /\
  TimePickerModal.increment max max = 0%Z /\
  (forall val, (0 <= val <= max)%Z ->
               TimePickerModal.typed max value (Some val) = val) /\
  (forall val, (val < 0 \/ max < val)%Z ->
               TimePickerModal.typed max value (Some val) = value) /\
  (forall f edits,
      TimePickerModal.accepted f ->
      let f' := fold_left
                  (fun g ie => TimePickerModal.onChange g (fst ie) (snd ie))
                  edits f in
      TimePickerModal.accepted f' /\
      0 <= TimePickerModal.newStart f' /\ TimePickerModal.newStart f' < 24 /\
      0 <= TimePickerModal.newEnd f' /\ TimePickerModal.newEnd f' < 24).
Proof.
  intros Hm Hv.
  split; [intro e; apply edit_in_range; assumption|].
  unfold TimePickerModal.increment, TimePickerModal.decrement.
  split; [|split; [|split; [|split; [|split; [|split]]]]].
  - destruct (Z.eqb_spec value 0) as [->|N].
    + rewrite Z.eqb_refl. reflexivity.
    + destruct (Z.eqb_spec (value - 1) max); lia.
  - destruct (Z.eqb_spec value max) as [->|N].
    + rewrite Z.eqb_refl. reflexivity.
    + destruct (Z.eqb_spec (value + 1) 0); lia.
  - reflexivity.
  - rewrite Z.eqb_refl. reflexivity.
  - intros val Hin. cbn.
    destruct (Z.leb_spec 0 val), (Z.leb_spec val max); cbn; try reflexivity; lia.
  - intros val Hout. cbn.
    destruct (Z.leb_spec 0 val), (Z.leb_spec val max); cbn; try reflexivity; lia.
  - intros f edits. revert f.
    assert (Keep : forall g i e, TimePickerModal.accepted g ->
                                 TimePickerModal.accepted (TimePickerModal.onChange g i e)).
    { intros g i e (A & B & C & D).
      pose proof (fun v H => edit_in_range 23 v e ltac:(lia) H) as Eh.
      pose proof (fun v H => edit_in_range 59 v e ltac:(lia) H) as Em.
      destruct i; unfold TimePickerModal.accepted; cbn;
        repeat split; try lia;
        first [apply Eh; assumption | apply Em; assumption]. }
    induction edits as [|ie edits IH]; intros f Hf.
    + cbn [fold_left]. split; [exact Hf|].
      destruct Hf as (A & B & C & D).
      destruct (picker_time_range _ _ A B) as (S0 & S1 & _).
      destruct (picker_time_range _ _ C D) as (E0 & E1 & _).
      repeat split; assumption.
    + cbn [fold_left]. apply IH, Keep, Hf.
Qed.

Lemma time_input_in_range_witness :
  TimePickerModal.increment 59 (TimePickerModal.decrement 59 0) = 0%Z /\
  TimePickerModal.typed 23 7 (Some 24%Z) = 7%Z.
Proof.
  destruct (time_input_in_range 59 0) as (_ & A & _); [lia | lia |].
  destruct (time_input_in_range 23 7) as (_ & _ & _ & _ & _ & _ & B & _);
    [lia | lia |].
  split; [exact A | apply B; lia].
Defined.

(** ** Deleting blocks and calendars *)

Lemma onDeleteBlock_In (i : string) (prev : list TimeBlockData) (b : TimeBlockData) :
  In b (onDeleteBlock i prev) <-> In b prev /\ id b <> i.
Proof.
  unfold onDeleteBlock. rewrite filter_In, negb_true_iff. split.
  - intros [H E]. split; [exact H|]. intro Ei.
    rewrite Ei, String.eqb_refl in E. discriminate.
  - intros [H N]. split; [exact H|]. destruct (String.eqb_spec (id b) i); congruence.
Qed.

Lemma filter_all {A : Type} (p : A -> bool) (l : list A) :
  (forall x, In x l -> p x = true) -> filter p l = l.
Proof.
  induction l as [|x l IH]; intro H; [reflexivity|].
  cbn [filter]. rewrite (H x (or_introl eq_refl)), IH; [reflexivity|].
  intros y Hy. apply H. right. exact Hy.
Qed.

Lemma filter_comm {A : Type} (p q : A -> bool) (l : list A) :
  filter p (filter q l) = filter q (filter p l).
Proof.
  induction l as [|x l IH]; [reflexivity|].
  cbn [filter]. destruct (p x) eqn:P, (q x) eqn:Q0; cbn [filter];
    rewrite ?P, ?Q0, IH; reflexivity.
Qed.

(** X17: deleting a block removes every block with that id and nothing else:
    the other blocks stay, in their order (every selection of blocks that
    leaves that id out is what it was); no block with the id is left, so a
    later update for that id changes nothing; deleting an id that is not in
    the store, or deleting twice, changes nothing more; and a deletion and an
    update of another id (not carrying an [id] field) give the same store in
    either order. *)
Theorem delete_block_frame (i : string) (prev : list TimeBlockData) :
  (forall b, In b (onDeleteBlock i prev) <-> In b prev /\ id b <> i) /\
  (forall keep : TimeBlockData -> bool,
      (forall b, id b = i -> keep b = false) ->
      filter keep (onDeleteBlock i prev) = filter keep prev) /\
  ~ In i (map id (onDeleteBlock i prev)) /\
  (forall updates, onUpdateBlock i updates (onDeleteBlock i prev)
                   = onDeleteBlock i prev) /\
  (~ In i (map id prev) -> onDeleteBlock i prev = prev) /\
  onDeleteBlock i (onDeleteBlock i prev) = onDeleteBlock i prev /\
  (forall j updates,
      j <> i -> p_id updates = None ->
      onDeleteBlock i (onUpdateBlock j updates prev)
      = onUpdateBlock j updates (onDeleteBlock i prev)) /\
  (forall calendar,
      blocks_of calendar (onDeleteBlock i prev)
      = onDeleteBlock i (blocks_of calendar prev)).
Proof.
  assert (Gone : ~ In i (map id (onDeleteBlock i prev))).
  { rewrite in_map_iff. intros (b & E & H).
    apply onDeleteBlock_In in H. destruct H as [_ N]. exact (N E). }
  split; [intro b; apply onDeleteBlock_In|].
  split.
  { intros keep Hk. unfold onDeleteBlock. rewrite filter_comm.
    apply filter_all. intros b Hb. apply filter_In in Hb.
    destruct Hb as [_ Kb]. apply negb_true_iff.
    destruct (String.eqb_spec (id b) i) as [E|E]; [|reflexivity].
    rewrite (Hk b E) in Kb. discriminate. }
  split; [exact Gone|].
  split; [intro updates; apply onUpdateBlock_absent, Gone|].
  split; [|split; [|split]].
  - intro N. unfold onDeleteBlock. apply filter_all.
    intros b Hb. apply negb_true_iff.
    destruct (String.eqb_spec (id b) i) as [E|E]; [|reflexivity].
    exfalso. apply N. rewrite <- E. apply in_map, Hb.
  - unfold onDeleteBlock. apply filter_all.
    intros b Hb. apply filter_In in Hb. apply Hb.
  - intros j updates Ne Hid. unfold onDeleteBlock, onUpdateBlock.
    induction prev as [|b rest IH]; [reflexivity|].
    assert (IH' : ~ In i (map id (onDeleteBlock i rest))).
    { rewrite in_map_iff. intros (c & E & H).
      apply onDeleteBlock_In in H. destruct H as [_ N]. exact (N E). }
    specialize (IH IH'). cbn [map filter].
    assert (Ei : id (if String.eqb (id b) j then spread b updates else b) = id b).
    { destruct (String.eqb (id b) j); [cbn; rewrite Hid|]; reflexivity. }
    rewrite Ei. destruct (String.eqb (id b) i); cbn [negb map]; rewrite IH;
      reflexivity.
  - intro calendar. unfold blocks_of, onDeleteBlock. apply filter_comm.
Qed.

Lemma delete_block_frame_witness :
  onDeleteBlock "b" (onUpdateBlock "a" (label_update "Deep work") sample_blocks)
  = onUpdateBlock "a" (label_update "Deep work") (onDeleteBlock "b" sample_blocks) /\
  onDeleteBlock "zz" sample_blocks = sample_blocks.
Proof.
  destruct (delete_block_frame "b" sample_blocks) as (_ & _ & _ & _ & _ & _ & C & _).
  destruct (delete_block_frame "zz" sample_blocks) as (_ & _ & _ & _ & A & _).
  split.
  - apply C; [discriminate | reflexivity].
  - apply A. cbn. intuition discriminate.
Defined.

(** X18: the first calendar cannot be deleted, and deleting another one
    (calendars with distinct ids) removes exactly that calendar and its
    blocks: the calendars before it, the first one among them, stay in their
    places and one calendar fewer is left; no block of the deleted calendar
    remains, and the snapshot of every other calendar is what it was. *)
Theorem delete_calendar_frame (app : ScheduleManager.App) (idx : nat)
  (calendar : ScheduleManager.Calendar) :
  ScheduleManager.clickDelete 0 app = app /\
  (NoDup (map ScheduleManager.cal_id (ScheduleManager.calendars app)) ->
   (0 < idx)%nat ->
   nth_error (ScheduleManager.calendars app) idx = Some calendar ->
   let app' := ScheduleManager.clickDelete idx app in
   (forall n, (n < idx)%nat ->
              nth_error (ScheduleManager.calendars app') n
              = nth_error (ScheduleManager.calendars app) n) /\
   S (List.length (ScheduleManager.calendars app'))
   = List.length (ScheduleManager.calendars app) /\
   ~ In (ScheduleManager.cal_id calendar)
        (map ScheduleManager.cal_id (ScheduleManager.calendars app')) /\
   blocks_of (ScheduleManager.cal_id calendar) (ScheduleManager.blocks app') = [] /\
   (forall other,
       other <> ScheduleManager.cal_id calendar ->
       blocks_of other (ScheduleManager.blocks app')
       = blocks_of other (ScheduleManager.blocks app))).
Proof.
  split; [reflexivity|].
  intros ND Hidx Hn app'.
  assert (Eapp : app' = ScheduleManager.deleteCalendar calendar app).
  { unfold app', ScheduleManager.clickDelete.
    destruct idx as [|k]; [lia|]. rewrite Hn. reflexivity. }
  rewrite Eapp. unfold ScheduleManager.deleteCalendar.
  cbn [ScheduleManager.calendars ScheduleManager.blocks].
  set (keep := fun cal => negb (String.eqb (ScheduleManager.cal_id cal)
                                  (ScheduleManager.cal_id calendar))).
  destruct (nth_error_split _ _ Hn) as (l1 & l2 & Ecal & Elen).
  rewrite Ecal in ND |- *.
  rewrite map_app in ND. cbn [map] in ND.
  pose proof (NoDup_remove_2 _ _ _ ND) as Nc.
  assert (K1 : filter keep l1 = l1).
  { apply filter_all. intros c Hc. unfold keep. apply negb_true_iff.
    destruct (String.eqb_spec (ScheduleManager.cal_id c)
                (ScheduleManager.cal_id calendar)) as [E|E]; [|reflexivity].
    exfalso. apply Nc, in_or_app. left. rewrite <- E. apply in_map, Hc. }
  assert (K2 : filter keep l2 = l2).
  { apply filter_all. intros c Hc. unfold keep. apply negb_true_iff.
    destruct (String.eqb_spec (ScheduleManager.cal_id c)
                (ScheduleManager.cal_id calendar)) as [E|E]; [|reflexivity].
    exfalso. apply Nc, in_or_app. right. rewrite <- E. apply in_map, Hc. }
  assert (Ef : filter keep (l1 ++ calendar :: l2) = l1 ++ l2).
  { rewrite filter_app. cbn [filter]. unfold keep at 2.
    rewrite String.eqb_refl. cbn [negb]. rewrite K1, K2. reflexivity. }
  rewrite Ef.
  split; [|split; [|split; [|split]]].
  - intros n Hlt. rewrite !nth_error_app1 by lia. reflexivity.
  - rewrite !length_app. cbn [List.length]. lia.
  - rewrite map_app. exact Nc.
  - unfold blocks_of.
    destruct (filter _ (filter _ (ScheduleManager.blocks app))) as [|b rest] eqn:F;
      [reflexivity|].
    assert (Hb : In b (filter (fun block => String.eqb (calendarId block)
                                              (ScheduleManager.cal_id calendar))
                         (filter (fun block => negb (String.eqb (calendarId block)
                                                      (ScheduleManager.cal_id calendar)))
                            (ScheduleManager.blocks app))))
      by (rewrite F; left; reflexivity).
    apply filter_In in Hb. destruct Hb as [Hb E1].
    apply filter_In in Hb. destruct Hb as [_ E2].
    rewrite E1 in E2. discriminate.
  - intros other Ne. unfold blocks_of. rewrite filter_comm.
    apply filter_all. intros b Hb. apply filter_In in Hb.
    destruct Hb as [_ E]. apply String.eqb_eq in E. apply negb_true_iff.
    destruct (String.eqb_spec (calendarId b) (ScheduleManager.cal_id calendar));
      congruence.
Qed.

Lemma delete_calendar_frame_witness :
  ScheduleManager.calendars (ScheduleManager.clickDelete 1 default_app)
  = [ScheduleManager.mkCalendar "work" "Work Schedule" "#E6F3FF"] /\
  blocks_of "work" (ScheduleManager.blocks (ScheduleManager.clickDelete 1 default_app))
  = [work_block].
Proof.
  destruct (proj2 (delete_calendar_frame default_app 1
                     (ScheduleManager.mkCalendar "personal" "Personal" "#F3E6FF")))
    as (_ & _ & _ & _ & Other).
  - repeat constructor; cbn; intuition discriminate.
  - lia.
  - reflexivity.
  - split; [reflexivity|]. rewrite (Other "work"%string); [reflexivity|discriminate].
Defined.

(** ** One gesture, one block *)

Lemma handleMouseMove_target (ds : DragState) (blocks : list TimeBlockData)
  (bounds_width clientX : Q) (c : Call) :
  handleMouseMove ds blocks bounds_width clientX = Some c ->
  truthy_id (blockId ds) = Some (fst c) /\ type ds <> None.
Proof.
  unfold handleMouseMove. destruct (type ds) as [ty|]; [|discriminate].
  destruct (truthy_id (blockId ds)) as [t|]; [|discriminate].
  destruct (blocks_find blocks t) as [block|] eqn:F; [|discriminate].
  intro H. injection H as <-. cbn [fst].
  rewrite (proj2 (blocks_find_some _ _ _ F)). split; [reflexivity|discriminate].
Qed.

(** X19: a gesture touches only the block it was started on.  After a press
    on [target] at a timeline at rest, and along any pointer moves, animation
    frames, timer expiries and a release, every commit made is addressed to
    [target], and every block of the store with another id is exactly what it
    was, at the place where it was. *)
Theorem gesture_changes_target_only (calendar : string) (bounds_width : Q)
  (st : list TimeBlockData) (ty : DragType) (target : string) (x0 : Q)
  (es : list Event) :
  target <> EmptyString ->
  Forall after_press es ->
  let s := run calendar bounds_width (at_rest st) (StartDrag ty target x0 :: es) in
  Forall (fun c => fst c = target) (commits s) /\
  List.length (store s) = List.length st /\
  (forall n b, nth_error st n = Some b -> id b <> target ->
               nth_error (store s) n = Some b).
Proof.
  intros Ne Hes s.
  set (Inv := fun s' : State =>
         (type (dragState s') <> None ->
          truthy_id (blockId (dragState s')) = Some target) /\
         Forall (fun f => fst (snd f) = target) (frames s') /\
         Forall (fun t => fst (snd t) = target) (timers s') /\
         Forall (fun c => fst c = target) (commits s') /\
         List.length (store s') = List.length st /\
         (forall n b, nth_error st n = Some b -> id b <> target ->
                      nth_error (store s') n = Some b)).
  assert (H0 : Inv (step calendar bounds_width (at_rest st) (StartDrag ty target x0))).
  { unfold Inv. cbn [step at_rest store dragState instance frames timers commits].
    split; [|repeat split; try constructor; auto].
    unfold handleStartDrag.
    destruct (blocks_find (blocks_of calendar st) target); cbn.
    - intros _. destruct target; [contradiction | reflexivity].
    - intro H. contradiction. }
  assert (Hall : Inv s).
  { unfold s, run. cbn [fold_left]. revert H0.
    generalize (step calendar bounds_width (at_rest st) (StartDrag ty target x0)).
    induction Hes as [|e rest He Hrest IH]; intros s0 H0; [exact H0|].
    cbn [fold_left]. apply IH.
    destruct H0 as (D0 & F0 & T0 & C0 & L0 & K0).
    destruct e as [| x | | inst | | | |]; try contradiction; unfold Inv.
    - cbn [step].
      destruct (handleMouseMove (dragState s0) (blocks_of calendar (store s0))
                  bounds_width x) as [c|] eqn:Hm;
        [|repeat split; assumption].
      cbn [store dragState frames timers commits].
      destruct (handleMouseMove_target _ _ _ _ _ Hm) as [Ht Hty].
      split; [exact D0|]. split; [|repeat split; assumption].
      apply Forall_app. split; [exact F0|]. constructor; [|constructor].
      cbn [snd]. specialize (D0 Hty). congruence.
    - cbn [step store dragState frames timers commits].
      split; [exact D0|]. split; [constructor|].
      split; [|repeat split; assumption].
      apply (run_frames_Forall (fun c => fst c = target)); assumption.
    - cbn [step]. destruct (pending_call inst (timers s0)) as [c|] eqn:Hp;
        [|repeat split; assumption].
      assert (Hc : fst c = target).
      { apply pending_call_In in Hp. rewrite Forall_forall in T0.
        exact (T0 _ Hp). }
      cbn [commit store dragState frames timers commits].
      split; [exact D0|]. split; [exact F0|]. split; [|split; [|split]].
      + unfold disarm. apply Forall_forall. intros t Ht.
        apply filter_In in Ht. rewrite Forall_forall in T0. apply T0, Ht.
      + apply Forall_app. split; [exact C0|]. constructor; [exact Hc|constructor].
      + unfold onUpdateBlock. rewrite length_map. exact L0.
      + intros n b Hn Hb. rewrite onUpdateBlock_nth, (K0 n b Hn Hb).
        cbn [option_map]. rewrite Hc.
        destruct (String.eqb_spec (id b) target); [contradiction|reflexivity].
    - cbn [step]. destruct (type (dragState s0)) eqn:Ty;
        [|repeat split; try assumption; rewrite Ty; exact D0 || assumption].
      cbn [store dragState frames timers commits].
      split; [intro H; contradiction|]. repeat split; assumption. }
  destruct Hall as (_ & _ & _ & C & L & K).
  split; [exact C|]. split; [exact L | exact K].
Qed.

Lemma gesture_changes_target_only_witness :
  nth_error
    (store (run "work" 1000 (at_rest sample_blocks)
              [StartDrag move "a" 100; MouseMove 200; AnimationFrame;
               TimerExpired 0; MouseUp])) 1
  = Some (mkBlock "b" 10 12 "Review" "#E6F3FF" "work").
Proof.
  destruct (gesture_changes_target_only "work" 1000 sample_blocks move "a" 100
              [MouseMove 200; AnimationFrame; TimerExpired 0; MouseUp])
    as (_ & _ & K).
  - discriminate.
  - repeat constructor.
  - apply K; [reflexivity | discriminate].
Defined.
